(** * ui/icons.py: toolbar icons rendered from inline SVG

    A shallow embedding of [ui/icons.py] (module initialisation, [_svg_icon]
    and [toolbar_icons]) together with the part of the Qt toolkit the module
    drives: pixmaps, painters, the SVG renderer and icon handles. *)

From Stdlib Require Import ZArith List Bool Lia.
From Stdlib Require Import Strings.Ascii Strings.String Strings.Byte DecimalString.
From Stdlib Require DecimalZ DecimalPos.
Import ListNotations.

Local Open Scope string_scope.
Local Open Scope Z_scope.

(** ** Python strings *)

Module PyStr.

(** The string literals of the source hold the double quote character.
    They are written here with an apostrophe in its place (no literal of
    the source holds an apostrophe) and [lit] puts the double quote back. *)
Definition dquote : ascii := ascii_of_nat 34.
Definition apostrophe : ascii := ascii_of_nat 39.

Fixpoint lit (s : string) : string :=
  match s with
  | EmptyString => EmptyString
  | String c r =>
      String (if Ascii.eqb c apostrophe then dquote else c) (lit r)
  end.

(** [str(n)] for an [int]: decimal digits, with a leading minus sign for a
    negative number; it is what an f-string field [{size}] expands to. *)
Definition str (n : Z) : string := NilZero.string_of_int (Z.to_int n).

(** [bytearray(s, "utf-8")]: the documents are ASCII, one byte per
    character. *)
Definition bytearray_utf8 (s : string) : list byte := list_byte_of_string s.

End PyStr.

(** ** Python dictionaries: insertion ordered, one entry per key *)

Module Dict.
Section Dict.
Context {V : Type}.

Definition t := list (string * V).

Definition empty : t := [].

(** [d[k] = v]: an existing key keeps its position, a new key goes last. *)
Fixpoint set (k : string) (v : V) (d : t) : t :=
  match d with
  | [] => [(k, v)]
  | (k', v') :: r =>
      if String.eqb k k' then (k', v) :: r else (k', v') :: set k v r
  end.

Fixpoint get (k : string) (d : t) : option V :=
  match d with
  | [] => None
  | (k', v') :: r => if String.eqb k k' then Some v' else get k r
  end.

Fixpoint remove (k : string) (d : t) : t :=
  match d with
  | [] => []
  | (k', v') :: r =>
      if String.eqb k k' then r else (k', v') :: remove k r
  end.

(** [k in d]. *)
Definition mem (k : string) (d : t) : bool :=
  match get k d with
  | Some _ => true
  | None => false
  end.

Definition keys (d : t) : list string := map fst d.

Definition items (d : t) : list (string * V) := d.

(** A dictionary display [{k1: v1, k2: v2, ...}]: the entries are stored
    from left to right. *)
Definition literal (entries : list (string * V)) : t :=
  fold_left (fun d kv => set (fst kv) (snd kv) d) entries empty.
End Dict.
Arguments t : clear implicits.
End Dict.

(** ** The SVG documents of [toolbar_icons] *)

Import PyStr.

(** [base]: the shared SVG header, an f-string with two [{size}] fields. *)
Definition base (size : Z) : string :=
  lit "<svg xmlns='http://www.w3.org/2000/svg' width='" ++ str size
    ++ lit "' height='" ++ str size ++ lit "' "
    ++ lit "viewBox='0 0 24 24' fill='none' stroke='black' stroke-width='1.4' "
    ++ lit "stroke-linecap='round' stroke-linejoin='round'>".

(** [svgs]: the dictionary display of the ten documents.  (Each value is a
    chain of [+]; string concatenation is associative, and [++] is written
    without the brackets of the left to right evaluation.) *)
Definition svgs (size : Z) : Dict.t string :=
  let base := base size in
  Dict.literal [
    ("pan", base
       ++ lit "<path d='M7 12V6.5a1.8 1.8 0 0 1 3.6 0V12'/>"
       ++ lit "<path d='M10.6 12V5.5a1.8 1.8 0 0 1 3.6 0V12'/>"
       ++ lit "<path d='M14.2 12V7.5a1.8 1.8 0 0 1 3.6 0V14'/>"
       ++ lit "<path d='M6.5 12.5c-1.4-1-3.5-.1-3.5 1.7V16c0 3.3 2.7 6 6 6h5.8c2.6 0 4.2-1.8 4.2-4.2V14'/>"
       ++ "</svg>");
    ("zoom_in", base
       ++ lit "<circle cx='11' cy='11' r='6'/>"
       ++ lit "<path d='M20 20l-3.5-3.5'/>"
       ++ lit "<path d='M11 8.8v4.4'/>"
       ++ lit "<path d='M8.8 11h4.4'/>"
       ++ "</svg>");
    ("zoom_out", base
       ++ lit "<circle cx='11' cy='11' r='6'/>"
       ++ lit "<path d='M20 20l-3.5-3.5'/>"
       ++ lit "<path d='M8.8 11h4.4'/>"
       ++ "</svg>");
    ("show_all", base
       ++ lit "<path d='M8 3H3v5'/>"
       ++ lit "<path d='M16 3h5v5'/>"
       ++ lit "<path d='M21 16v5h-5'/>"
       ++ lit "<path d='M3 16v5h5'/>"
       ++ lit "<path d='M12 9v6'/>"
       ++ lit "<path d='M9 12h6'/>"
       ++ "</svg>");
    ("rotate_left", base
       ++ lit "<path d='M8.2 6.2a8 8 0 1 1-2.2 5.8'/>"
       ++ lit "<path d='M6 4v4h4'/>"
       ++ "</svg>");
    ("rotate_right", base
       ++ lit "<path d='M15.8 6.2a8 8 0 1 0 2.2 5.8'/>"
       ++ lit "<path d='M18 4v4h-4'/>"
       ++ "</svg>");
    ("reset_view", base
       ++ lit "<path d='M21 12a9 9 0 1 1-2.6-6.4'/>"
       ++ lit "<path d='M21 3v6h-6'/>"
       ++ "</svg>");
    ("edit", base
       ++ lit "<path d='M12 20h9'/>"
       ++ lit "<path d='M16.5 3.5a2.1 2.1 0 0 1 3 3L7 19l-4 1 1-4L16.5 3.5z'/>"
       ++ "</svg>");
    ("erase", base
       ++ lit "<path d='M4 7h16'/>"
       ++ lit "<path d='M6 7l1 14h10l1-14'/>"
       ++ lit "<path d='M9 7V4h6v3'/>"
       ++ "</svg>");
    ("undo", base
       ++ lit "<path d='M9 14l-4-4 4-4'/>"
       ++ lit "<path d='M5 10h8a6 6 0 1 1 0 12h-2'/>"
       ++ "</svg>")
  ].

(** ** Exceptions, outcomes and the state of the interpreter *)

Inductive PyExn : Type :=
| ImportError | ModuleNotFoundError | TypeError | RuntimeError
| OverflowError
| KeyboardInterrupt | SystemExit.

(** [isinstance(e, Exception)]: what a clause [except Exception] catches. *)
Definition is_Exception (e : PyExn) : bool :=
  match e with
  | KeyboardInterrupt | SystemExit => false
  | _ => true
  end.

Inductive Outcome (A : Type) : Type :=
| Return (a : A)
| Raise (e : PyExn).
Arguments Return {A} a.
Arguments Raise {A} e.

(** ** The Qt toolkit, as far as the module drives it

    The classes behave as Qt documents them: a pixmap with a side that is
    not positive is the null pixmap, filling or painting a null pixmap does
    nothing, a painter made for a null pixmap is not active, and an icon
    made from a null pixmap is the null icon.  A painter that begins to
    paint has the render hint [TextAntialiasing] set, and a painter that is
    not active reports no render hint.  The sides of a pixmap are C
    integers: an [int] of Python outside their range is refused with
    [OverflowError] when the call converts its arguments.  A pixmap of
    positive sides within that range is always obtained. *)

Module Qt.

(** [Qt.GlobalColor]. *)
Inductive GlobalColor : Type :=
| color0 | color1 | black | white | darkGray | gray | lightGray
| red | green | blue | cyan | magenta | yellow
| darkRed | darkGreen | darkBlue | darkCyan | darkMagenta | darkYellow
| transparent.

(** [QPainter.RenderHint]. *)
Inductive RenderHint : Type :=
| Antialiasing | TextAntialiasing | SmoothPixmapTransform.

(** What a paint operation lays on one pixel: a colour with its alpha. *)
Record Paint : Type := argb { p_alpha : Z; p_red : Z; p_green : Z; p_blue : Z }.

(** The content of one pixel, recorded as its history: the memory of a
    new pixmap is not initialised; [fill] overwrites a pixel with a colour;
    a painter composes what it draws over what is there. *)
Inductive Pixel : Type :=
| Uninitialised
| Filled (c : GlobalColor)
| Over (src : Paint) (dst : Pixel).

Fixpoint defined (p : Pixel) : bool :=
  match p with
  | Uninitialised => false
  | Filled _ => true
  | Over _ d => defined d
  end.

(** The colour a pixel had before anything was painted on it. *)
Fixpoint background_of (p : Pixel) : Pixel :=
  match p with
  | Over _ d => background_of d
  | _ => p
  end.

(** [QPixmap]: the null pixmap, or [h] rows of [w] pixels. *)
Inductive QPixmap : Type :=
| NullPixmap
| Pixmap (w h : Z) (rows : list (list Pixel)).

Definition isNull (pm : QPixmap) : bool :=
  match pm with NullPixmap => true | Pixmap _ _ _ => false end.

Definition width (pm : QPixmap) : Z :=
  match pm with NullPixmap => 0 | Pixmap w _ _ => w end.

Definition height (pm : QPixmap) : Z :=
  match pm with NullPixmap => 0 | Pixmap _ h _ => h end.

Definition rows (pm : QPixmap) : list (list Pixel) :=
  match pm with NullPixmap => [] | Pixmap _ _ r => r end.

(** [QPixmap(w, h)]: a pixmap of that size, its content not initialised;
    the null pixmap unless both sides are positive. *)
Definition new_pixmap (w h : Z) : QPixmap :=
  if (0 <? w) && (0 <? h)
  then Pixmap w h (repeat (repeat Uninitialised (Z.to_nat w)) (Z.to_nat h))
  else NullPixmap.

(** [QPixmap.fill(c)]: every pixel becomes [c]. *)
Definition fill (c : GlobalColor) (pm : QPixmap) : QPixmap :=
  match pm with
  | NullPixmap => NullPixmap
  | Pixmap w h r => Pixmap w h (map (map (fun _ => Filled c)) r)
  end.

(** The class [QSvgRenderer]: for a document, the size of the paint
    device and the painter's render hints, what it paints on the pixel
    in column [x] of row [y], if anything.  ([render(painter)] scales the
    document to the whole device.) *)
Record SvgRendererClass : Type := {
  rasterize : list byte -> Z -> Z -> list RenderHint -> Z -> Z -> option Paint
}.

(** An instance [QSvgRenderer(contents)]. *)
Record QSvgRenderer : Type := {
  r_class : SvgRendererClass;
  r_contents : list byte
}.

Definition paint_pixel (src : option Paint) (dst : Pixel) : Pixel :=
  match src with
  | Some s => Over s dst
  | None => dst
  end.

(** [f] applied to each element and its index, counted from [i]. *)
Fixpoint mapi {A B : Type} (f : Z -> A -> B) (i : Z) (l : list A) : list B :=
  match l with
  | [] => []
  | a :: r => f i a :: mapi f (i + 1) r
  end.

(** What [render] does to the pixmap under the painter. *)
Definition render_on (r : QSvgRenderer) (hints : list RenderHint)
    (pm : QPixmap) : QPixmap :=
  match pm with
  | NullPixmap => NullPixmap
  | Pixmap w h rs =>
      Pixmap w h
        (mapi (fun y row =>
                 mapi (fun x p =>
                         paint_pixel
                           (rasterize (r_class r) (r_contents r) w h hints x y)
                           p)
                      0 row)
              0 rs)
  end.

(** [QPainter]: the paint device it was made for (an address in the store
    of pixmaps), whether it is painting, and the render hints set on it. *)
Record QPainter : Type := {
  pt_device : nat;
  pt_active : bool;
  pt_hints : list RenderHint
}.

(** [QIcon]: the pixmaps the icon can show; none for the null icon. *)
Record QIcon : Type := { icon_pixmaps : list QPixmap }.

(** [QIcon()]. *)
Definition null_icon : QIcon := {| icon_pixmaps := [] |}.

(** [QIcon(pixmap)]: the icon holds a copy of the pixmap; a null pixmap
    is not added. *)
Definition icon_of_pixmap (pm : QPixmap) : QIcon :=
  if isNull pm then null_icon else {| icon_pixmaps := [pm] |}.

(** The range of a C [int]. *)
Definition INT_MIN : Z := -2147483648.
Definition INT_MAX : Z := 2147483647.

(** [n] can be passed where the toolkit takes a C [int]. *)
Definition fits_int (n : Z) : bool := (INT_MIN <=? n) && (n <=? INT_MAX).

Definition in_int_range (n : Z) : Prop := INT_MIN <= n <= INT_MAX.

End Qt.
Import Qt.

(** The state a call runs in: the module's global name [QSvgRenderer] and
    the toolkit objects made so far, each at its index. *)
Record World : Type := {
  g_QSvgRenderer : option SvgRendererClass;
  pixmaps : list QPixmap;
  painters : list QPainter
}.

(** ** Computations *)

Definition M (A : Type) : Type := World -> Outcome A * World.

Definition ret {A : Type} (a : A) : M A := fun w => (Return a, w).

Definition raise {A : Type} (e : PyExn) : M A := fun w => (Raise e, w).

Definition bind {A B : Type} (m : M A) (k : A -> M B) : M B :=
  fun w =>
    match m w with
    | (Return a, w') => k a w'
    | (Raise e, w') => (Raise e, w')
    end.

Notation "x <- m ;; k" := (bind m (fun x => k))
  (at level 61, m at next level, right associativity).
Notation "m ;;; k" := (bind m (fun _ => k))
  (at level 61, right associativity).

Fixpoint update {A : Type} (i : nat) (a : A) (l : list A) : list A :=
  match l, i with
  | [], _ => []
  | _ :: r, O => a :: r
  | b :: r, S j => b :: update j a r
  end.

(** ** The toolkit's operations on the store *)

Definition with_pixmaps (f : list QPixmap -> list QPixmap) (w : World) : World :=
  {| g_QSvgRenderer := g_QSvgRenderer w;
     pixmaps := f (pixmaps w);
     painters := painters w |}.

Definition with_painters (f : list QPainter -> list QPainter) (w : World) : World :=
  {| g_QSvgRenderer := g_QSvgRenderer w;
     pixmaps := pixmaps w;
     painters := f (painters w) |}.

(** Reading the global name [QSvgRenderer]. *)
Definition load_QSvgRenderer : M (option SvgRendererClass) :=
  fun w => (Return (g_QSvgRenderer w), w).

(** An object of the store; using one that is not there is an error of the
    binding. *)
Definition the_pixmap (a : nat) : M QPixmap :=
  fun w =>
    match nth_error (pixmaps w) a with
    | Some pm => (Return pm, w)
    | None => (Raise RuntimeError, w)
    end.

Definition the_painter (p : nat) : M QPainter :=
  fun w =>
    match nth_error (painters w) p with
    | Some pt => (Return pt, w)
    | None => (Raise RuntimeError, w)
    end.

Definition store_pixmap (a : nat) (pm : QPixmap) : M unit :=
  fun w => (Return tt, with_pixmaps (update a pm) w).

Definition store_painter (p : nat) (pt : QPainter) : M unit :=
  fun w => (Return tt, with_painters (update p pt) w).

(** [QSvgRenderer(contents)]: calling what the global name is bound to;
    calling [None] raises [TypeError]. *)
Definition QSvgRenderer_call (contents : list byte) : M QSvgRenderer :=
  g <- load_QSvgRenderer ;;
  match g with
  | Some cls => ret {| r_class := cls; r_contents := contents |}
  | None => raise TypeError
  end.

(** [QPixmap(w, h)]: a new pixmap in the store; [OverflowError], and no
    pixmap, when an argument does not fit a C [int]. *)
Definition QPixmap_call (w h : Z) : M nat :=
  if fits_int w && fits_int h
  then fun wd =>
         (Return (List.length (pixmaps wd)),
          with_pixmaps (fun l => (l ++ [new_pixmap w h])%list) wd)
  else raise OverflowError.

(** [pixmap.fill(c)]. *)
Definition QPixmap_fill (a : nat) (c : GlobalColor) : M unit :=
  pm <- the_pixmap a ;;
  store_pixmap a (fill c pm).

(** [QPainter(device)]: a new painter that begins to paint on the device,
    with the hint [TextAntialiasing] set; on a null pixmap it stays
    inactive and has no hint. *)
Definition QPainter_call (device : nat) : M nat :=
  pm <- the_pixmap device ;;
  fun wd =>
    (Return (List.length (painters wd)),
     with_painters
       (fun l => (l ++ [{| pt_device := device;
                           pt_active := negb (isNull pm);
                           pt_hints := if isNull pm
                                       then []
                                       else [TextAntialiasing] |}])%list)
       wd).

(** [painter.setRenderHint(hint)]: a painter that is not active takes no
    hint. *)
Definition QPainter_setRenderHint (p : nat) (hint : RenderHint) : M unit :=
  pt <- the_painter p ;;
  if pt_active pt
  then store_painter p {| pt_device := pt_device pt;
                          pt_active := pt_active pt;
                          pt_hints := hint :: pt_hints pt |}
  else ret tt.

(** [renderer.render(painter)]: paints on the painter's device; nothing is
    painted through a painter that is not active. *)
Definition QSvgRenderer_render (r : QSvgRenderer) (p : nat) : M unit :=
  pt <- the_painter p ;;
  if pt_active pt
  then pm <- the_pixmap (pt_device pt) ;;
       store_pixmap (pt_device pt) (render_on r (pt_hints pt) pm)
  else ret tt.

(** [painter.end()]: the painter is not active any more and has no render
    hint left. *)
Definition QPainter_end (p : nat) : M unit :=
  pt <- the_painter p ;;
  store_painter p {| pt_device := pt_device pt;
                     pt_active := false;
                     pt_hints := [] |}.

(** [QIcon(pixmap)]. *)
Definition QIcon_call (a : nat) : M QIcon :=
  pm <- the_pixmap a ;;
  ret (icon_of_pixmap pm).

(** ** The module *)

(** Lines 8 to 11: [QSvgRenderer] is bound to the imported class, or to
    [None] when the import raises an [Exception].  [import_QtSvg] is how the
    import statement ends in the running environment. *)
Definition module_init (import_QtSvg : Outcome SvgRendererClass)
  : Outcome (option SvgRendererClass) :=
  match import_QtSvg with
  | Return cls => Return (Some cls)
  | Raise e => if is_Exception e then Return None else Raise e
  end.

(** The state right after the module was loaded with [QSvgRenderer] bound
    to [g]. *)
Definition loaded (g : option SvgRendererClass) : World :=
  {| g_QSvgRenderer := g; pixmaps := []; painters := [] |}.

Definition _svg_icon (svg : string) (size : Z) (background : option GlobalColor)
  : M QIcon :=
  g <- load_QSvgRenderer ;;
  match g with
  | None => ret null_icon
  | Some _ =>
      renderer <- QSvgRenderer_call (bytearray_utf8 svg) ;;
      pixmap <- QPixmap_call size size ;;
      match background with
      | None => QPixmap_fill pixmap transparent
      | Some c => QPixmap_fill pixmap c
      end ;;;
      painter <- QPainter_call pixmap ;;
      QPainter_setRenderHint painter Antialiasing ;;;
      QSvgRenderer_render renderer painter ;;;
      QPainter_end painter ;;;
      QIcon_call pixmap
  end.

(** The defaults of the parameters. *)
Definition _svg_icon_default_size : Z := 24.
Definition _svg_icon_default_background : option GlobalColor := None.
Definition toolbar_icons_default_size : Z := 24.

(** [{k: f(v) for k, v in items}]: the entries are computed and stored in
    the order of [items]. *)
Fixpoint dict_comprehension {V W : Type} (f : V -> M W)
    (items : list (string * V)) (acc : Dict.t W) : M (Dict.t W) :=
  match items with
  | [] => ret acc
  | (k, v) :: rest =>
      x <- f v ;;
      dict_comprehension f rest (Dict.set k x acc)
  end.

(** The last line of [toolbar_icons], for any table of documents:
    [_svg_icon(v, size=size)] leaves [background] to its default. *)
Definition render_all (documents : Dict.t string) (size : Z) : M (Dict.t QIcon) :=
  dict_comprehension
    (fun v => _svg_icon v size _svg_icon_default_background)
    (Dict.items documents) Dict.empty.

Definition toolbar_icons (size : Z) : M (Dict.t QIcon) :=
  render_all (svgs size) size.

(** A call [toolbar_icons()] or [toolbar_icons(size)]. *)
Definition call_toolbar_icons (size : option Z) : M (Dict.t QIcon) :=
  match size with
  | Some s => toolbar_icons s
  | None => toolbar_icons toolbar_icons_default_size
  end.

(** A toy renderer class for examples: whatever the document, it paints
    opaque black on the diagonal of the device. *)
Definition diagonal_class : SvgRendererClass :=
  {| rasterize := fun _ _ _ _ x y =>
       if x =? y then Some (argb 255 0 0 0) else None |}.

Arguments base : simpl never.
Arguments svgs : simpl never.

(** ** What a call computes, as functions of its arguments *)

(** The colour [_svg_icon] fills the pixmap with. *)
Definition fill_color (background : option GlobalColor) : GlobalColor :=
  match background with
  | None => transparent
  | Some c => c
  end.

(** The render hints of the painter of [_svg_icon] when the document is
    rendered: the one the painter began with and the one [_svg_icon] set. *)
Definition hints_at_render : list RenderHint := [Antialiasing; TextAntialiasing].

(** The pixmap [_svg_icon] ends with when the renderer class is [cls] and
    the pixmap could be made. *)
Definition rendered_pixmap (cls : SvgRendererClass) (svg : string) (size : Z)
    (background : option GlobalColor) : QPixmap :=
  render_on {| r_class := cls; r_contents := bytearray_utf8 svg |}
    hints_at_render
    (fill (fill_color background) (new_pixmap size size)).

(** Whether [_svg_icon] gets as far as its [return]: always when the
    renderer class is not bound, and with it when the size fits a C
    [int]. *)
Definition returns (g : option SvgRendererClass) (size : Z) : bool :=
  match g with
  | None => true
  | Some _ => fits_int size
  end.

Definition rendered_icon (g : option SvgRendererClass) (svg : string)
    (size : Z) (background : option GlobalColor) : QIcon :=
  match g with
  | None => null_icon
  | Some cls => icon_of_pixmap (rendered_pixmap cls svg size background)
  end.

(** The outcome of [_svg_icon]. *)
Definition svg_icon_outcome (g : option SvgRendererClass) (svg : string)
    (size : Z) (background : option GlobalColor) : Outcome QIcon :=
  if returns g size
  then Return (rendered_icon g svg size background)
  else Raise OverflowError.

(** The store after [_svg_icon]: one more pixmap and one more painter,
    which has ended, when the renderer is there and the pixmap could be
    made; nothing new otherwise. *)
Definition after_svg_icon (w : World) (svg : string) (size : Z)
    (background : option GlobalColor) : World :=
  match g_QSvgRenderer w with
  | None => w
  | Some cls =>
      if fits_int size
      then {| g_QSvgRenderer := g_QSvgRenderer w;
              pixmaps :=
                (pixmaps w ++ [rendered_pixmap cls svg size background])%list;
              painters :=
                (painters w ++ [{| pt_device := List.length (pixmaps w);
                                   pt_active := false;
                                   pt_hints := [] |}])%list |}
      else w
  end.

Fixpoint icons_of (g : option SvgRendererClass) (size : Z)
    (items : list (string * string)) (acc : Dict.t QIcon) : Dict.t QIcon :=
  match items with
  | [] => acc
  | (k, v) :: rest =>
      icons_of g size rest (Dict.set k (rendered_icon g v size None) acc)
  end.

Fixpoint after_all (w : World) (size : Z) (items : list (string * string)) : World :=
  match items with
  | [] => w
  | (_, v) :: rest => after_all (after_svg_icon w v size None) size rest
  end.

(** The dictionary [toolbar_icons] returns when [QSvgRenderer] is bound to
    [g]. *)
Definition icon_table (g : option SvgRendererClass) (size : Z) : Dict.t QIcon :=
  map (fun kv => (fst kv, rendered_icon g (snd kv) size None)) (svgs size).

(** The pixmaps a call of [render_all] adds to the store. *)
Definition new_pixmaps (g : option SvgRendererClass) (size : Z)
    (items : list (string * string)) : list QPixmap :=
  match g with
  | None => []
  | Some cls =>
      if fits_int size
      then map (fun kv => rendered_pixmap cls (snd kv) size None) items
      else []
  end.

(** The icon under the key [k] in the dictionary a call returned. *)
Definition icon_for (k : string) (r : Outcome (Dict.t QIcon) * World)
  : option QIcon :=
  match fst r with
  | Return icons => Dict.get k icons
  | Raise _ => None
  end.

(** ** The vocabulary of the specification *)

(** The ten names of the icons. *)
Definition icon_names : list string :=
  ["pan"; "zoom_in"; "zoom_out"; "show_all"; "rotate_left"; "rotate_right";
   "reset_view"; "edit"; "erase"; "undo"].

(** A start tag written out from its attributes, each [ name="value"]. *)
Fixpoint attributes (attrs : list (string * string)) : string :=
  match attrs with
  | [] => ">"
  | (name, value) :: rest =>
      " " ++ name ++ lit "='" ++ value ++ lit "'" ++ attributes rest
  end.

Definition start_tag (name : string) (attrs : list (string * string)) : string :=
  "<" ++ name ++ attributes attrs.

(** The header as the specification describes it: the size in [width] and
    [height], the view box fixed, black strokes 1.4 wide with round caps and
    joins, no fill. *)
Definition header_attributes (size : Z) : list (string * string) :=
  [ ("xmlns", "http://www.w3.org/2000/svg");
    ("width", str size);
    ("height", str size);
    ("viewBox", "0 0 24 24");
    ("fill", "none");
    ("stroke", "black");
    ("stroke-width", "1.4");
    ("stroke-linecap", "round");
    ("stroke-linejoin", "round") ].

Definition header (size : Z) : string := start_tag "svg" (header_attributes size).

(** The shape elements of each pictograph. *)
Definition shapes : list (string * list string) :=
  [ ("pan",
     [ lit "<path d='M7 12V6.5a1.8 1.8 0 0 1 3.6 0V12'/>";
       lit "<path d='M10.6 12V5.5a1.8 1.8 0 0 1 3.6 0V12'/>";
       lit "<path d='M14.2 12V7.5a1.8 1.8 0 0 1 3.6 0V14'/>";
       lit "<path d='M6.5 12.5c-1.4-1-3.5-.1-3.5 1.7V16c0 3.3 2.7 6 6 6h5.8c2.6 0 4.2-1.8 4.2-4.2V14'/>" ]);
    ("zoom_in",
     [ lit "<circle cx='11' cy='11' r='6'/>";
       lit "<path d='M20 20l-3.5-3.5'/>";
       lit "<path d='M11 8.8v4.4'/>";
       lit "<path d='M8.8 11h4.4'/>" ]);
    ("zoom_out",
     [ lit "<circle cx='11' cy='11' r='6'/>";
       lit "<path d='M20 20l-3.5-3.5'/>";
       lit "<path d='M8.8 11h4.4'/>" ]);
    ("show_all",
     [ lit "<path d='M8 3H3v5'/>";
       lit "<path d='M16 3h5v5'/>";
       lit "<path d='M21 16v5h-5'/>";
       lit "<path d='M3 16v5h5'/>";
       lit "<path d='M12 9v6'/>";
       lit "<path d='M9 12h6'/>" ]);
    ("rotate_left",
     [ lit "<path d='M8.2 6.2a8 8 0 1 1-2.2 5.8'/>";
       lit "<path d='M6 4v4h4'/>" ]);
    ("rotate_right",
     [ lit "<path d='M15.8 6.2a8 8 0 1 0 2.2 5.8'/>";
       lit "<path d='M18 4v4h-4'/>" ]);
    ("reset_view",
     [ lit "<path d='M21 12a9 9 0 1 1-2.6-6.4'/>";
       lit "<path d='M21 3v6h-6'/>" ]);
    ("edit",
     [ lit "<path d='M12 20h9'/>";
       lit "<path d='M16.5 3.5a2.1 2.1 0 0 1 3 3L7 19l-4 1 1-4L16.5 3.5z'/>" ]);
    ("erase",
     [ lit "<path d='M4 7h16'/>";
       lit "<path d='M6 7l1 14h10l1-14'/>";
       lit "<path d='M9 7V4h6v3'/>" ]);
    ("undo",
     [ lit "<path d='M9 14l-4-4 4-4'/>";
       lit "<path d='M5 10h8a6 6 0 1 1 0 12h-2'/>" ]) ].

(** An empty element [<path .../>] or [<circle .../>]. *)
Definition shape_element (s : string) : bool :=
  (String.prefix "<path " s || String.prefix "<circle " s)
  && String.eqb (substring (String.length s - 2) 2 s) "/>".

(** The document of a pictograph: header, shapes, end tag. *)
Definition document (size : Z) (elements : list string) : string :=
  header size ++ String.concat EmptyString elements ++ "</svg>".

(** The pixel in column [x] of row [y]. *)
Definition pixel_at (pm : QPixmap) (x y : nat) : option Pixel :=
  match nth_error (rows pm) y with
  | Some row => nth_error row x
  | None => None
  end.

(** [pm] is a bitmap of exactly [size] by [size] pixels. *)
Definition square (size : Z) (pm : QPixmap) : Prop :=
  width pm = size /\ height pm = size
  /\ List.length (rows pm) = Z.to_nat size
  /\ Forall (fun row => List.length row = Z.to_nat size) (rows pm).

(** [icon] shows one bitmap, of [size] by [size] pixels. *)
Definition backed_by_square (size : Z) (icon : QIcon) : Prop :=
  exists pm, icon_pixmaps icon = [pm] /\ isNull pm = false /\ square size pm.

Definition all_pixels (P : Pixel -> Prop) (pm : QPixmap) : Prop :=
  Forall (Forall P) (rows pm).

(** All elements of a list of strings differ. *)
Fixpoint distinct (l : list string) : bool :=
  match l with
  | [] => true
  | a :: r => negb (existsb (String.eqb a) r) && distinct r
  end.

(** A renderer class that paints nothing. *)
Definition blank_class : SvgRendererClass :=
  {| rasterize := fun _ _ _ _ _ _ => None |}.

(** ** Reading a document back *)

(** [s] without the prefix [p], when it starts with it. *)
Fixpoint strip_prefix (p s : string) : option string :=
  match p, s with
  | EmptyString, _ => Some s
  | String a p', String b s' =>
      if Ascii.eqb a b then strip_prefix p' s' else None
  | String _ _, EmptyString => None
  end.

(** The text up to the first double quote and the text after that quote. *)
Fixpoint split_quote (s : string) : option (string * string) :=
  match s with
  | EmptyString => None
  | String c r =>
      if Ascii.eqb c dquote then Some (EmptyString, r)
      else match split_quote r with
           | Some (a, b) => Some (String c a, b)
           | None => None
           end
  end.

(** A decimal numeral read as an integer. *)
Definition read_int (s : string) : option Z :=
  option_map Z.of_int (NilZero.int_of_string s).

(** The values of the attributes [width] and [height] read from the text
    of a document: the numerals between the quotes that follow
    [<svg xmlns=... width=] and [ height=]. *)
Definition read_size (doc : string) : option (Z * Z) :=
  match strip_prefix
          (lit "<svg xmlns='http://www.w3.org/2000/svg' width='") doc with
  | None => None
  | Some r1 =>
      match split_quote r1 with
      | None => None
      | Some (w, r2) =>
          match strip_prefix (lit " height='") r2 with
          | None => None
          | Some r3 =>
              match split_quote r3 with
              | None => None
              | Some (h, _) =>
                  match read_int w, read_int h with
                  | Some a, Some b => Some (a, b)
                  | _, _ => None
                  end
              end
          end
      end
  end.

(** No character of [s] is the double quote. *)
Fixpoint quote_free (s : string) : bool :=
  match s with
  | EmptyString => true
  | String c r => negb (Ascii.eqb c dquote) && quote_free r
  end.

(** A state in which other objects of the toolkit exist already: a pixmap
    of one red pixel and a painter at work on it. *)
Definition busy_world : World :=
  {| g_QSvgRenderer := Some diagonal_class;
     pixmaps := [Pixmap 1 1 [[Filled red]]];
     painters := [{| pt_device := 0; pt_active := true; pt_hints := [] |}] |}.

(** [hint] is among [hints]. *)
Definition has_hint (hint : RenderHint) (hints : list RenderHint) : bool :=
  existsb
    (fun h =>
       match hint, h with
       | Antialiasing, Antialiasing
       | TextAntialiasing, TextAntialiasing
       | SmoothPixmapTransform, SmoothPixmapTransform => true
       | _, _ => false
       end)
    hints.

(** A renderer class that paints the diagonal, and only under both hints
    [Antialiasing] and [TextAntialiasing]. *)
Definition hinted_class : SvgRendererClass :=
  {| rasterize := fun _ _ _ hints x y =>
       if has_hint Antialiasing hints && has_hint TextAntialiasing hints
          && (x =? y)
       then Some (argb 255 0 0 0)
       else None |}.

(** ** The model at work *)

Example str_negative : str (-3) = "-3" /\ str 0 = "0" /\ str 24 = "24".
Proof. repeat split. Qed.

Example base_24 :
  base 24
  = lit "<svg xmlns='http://www.w3.org/2000/svg' width='24' height='24' viewBox='0 0 24 24' fill='none' stroke='black' stroke-width='1.4' stroke-linecap='round' stroke-linejoin='round'>".
Proof. reflexivity. Qed.

Example svgs_32_undo :
  Dict.get "undo" (svgs 32)
  = Some (lit "<svg xmlns='http://www.w3.org/2000/svg' width='32' height='32' viewBox='0 0 24 24' fill='none' stroke='black' stroke-width='1.4' stroke-linecap='round' stroke-linejoin='round'><path d='M9 14l-4-4 4-4'/><path d='M5 10h8a6 6 0 1 1 0 12h-2'/></svg>").
Proof. reflexivity. Qed.

Example svg_icon_diagonal :
  _svg_icon "<svg/>" 2 None (loaded (Some diagonal_class))
  = (Return
       {| icon_pixmaps :=
            [Pixmap 2 2
               [[Over (argb 255 0 0 0) (Filled transparent); Filled transparent];
                [Filled transparent; Over (argb 255 0 0 0) (Filled transparent)]]] |},
     {| g_QSvgRenderer := Some diagonal_class;
        pixmaps :=
          [Pixmap 2 2
             [[Over (argb 255 0 0 0) (Filled transparent); Filled transparent];
              [Filled transparent; Over (argb 255 0 0 0) (Filled transparent)]]];
        painters := [{| pt_device := 0; pt_active := false;
                        pt_hints := [] |}] |}).
Proof. reflexivity. Qed.

Example svg_icon_hints_at_render :
  fst (_svg_icon "<svg/>" 1 None (loaded (Some hinted_class)))
  = Return
      {| icon_pixmaps :=
           [Pixmap 1 1 [[Over (argb 255 0 0 0) (Filled transparent)]]] |}.
Proof. reflexivity. Qed.

Example svg_icon_size_overflow :
  _svg_icon "<svg/>" 2147483648 None busy_world
  = (Raise OverflowError, busy_world)
  /\ _svg_icon "<svg/>" (-2147483649) None busy_world
     = (Raise OverflowError, busy_world)
  /\ _svg_icon "<svg/>" 2147483648 None (loaded None)
     = (Return null_icon, loaded None).
Proof. repeat split. Qed.

Example svg_icon_size_zero :
  _svg_icon "<svg/>" 0 (Some red) (loaded (Some diagonal_class))
  = (Return null_icon,
     {| g_QSvgRenderer := Some diagonal_class;
        pixmaps := [NullPixmap];
        painters := [{| pt_device := 0; pt_active := false;
                        pt_hints := [] |}] |}).
Proof. reflexivity. Qed.

Example svg_icon_without_renderer :
  _svg_icon "<svg/>" 24 None (loaded None) = (Return null_icon, loaded None).
Proof. reflexivity. Qed.

Example module_init_import_error :
  module_init (Raise ImportError) = Return None
  /\ module_init (Raise KeyboardInterrupt) = Raise KeyboardInterrupt
  /\ module_init (Return diagonal_class) = Return (Some diagonal_class).
Proof. repeat split. Qed.

Lemma Return_inj {A : Type} (a b : A) : Return a = Return b -> a = b.
Proof. now intros [= ->]. Qed.

(** ** The store *)

Lemma nth_error_snoc {A : Type} (l : list A) (a : A) :
  nth_error (l ++ [a]) (List.length l) = Some a.
Proof.
  induction l as [|b l IH]; simpl; [reflexivity | exact IH].
Qed.

Lemma update_snoc {A : Type} (l : list A) (a b : A) :
  update (List.length l) b (l ++ [a]) = (l ++ [b])%list.
Proof.
  induction l as [|c l IH]; simpl; [reflexivity | now rewrite IH].
Qed.

Section Store.
Context {g : option SvgRendererClass}.

Lemma the_pixmap_last pms pts pm :
  the_pixmap (List.length pms)
    {| g_QSvgRenderer := g; pixmaps := pms ++ [pm]; painters := pts |}
  = (Return pm,
     {| g_QSvgRenderer := g; pixmaps := pms ++ [pm]; painters := pts |}).
Proof.
  unfold the_pixmap; simpl. now rewrite nth_error_snoc.
Qed.

Lemma store_pixmap_last pms pts pm pm' :
  store_pixmap (List.length pms) pm'
    {| g_QSvgRenderer := g; pixmaps := pms ++ [pm]; painters := pts |}
  = (Return tt,
     {| g_QSvgRenderer := g; pixmaps := pms ++ [pm']; painters := pts |}).
Proof.
  unfold store_pixmap, with_pixmaps; simpl. now rewrite update_snoc.
Qed.

Lemma the_painter_last pms pts pt :
  the_painter (List.length pts)
    {| g_QSvgRenderer := g; pixmaps := pms; painters := pts ++ [pt] |}
  = (Return pt,
     {| g_QSvgRenderer := g; pixmaps := pms; painters := pts ++ [pt] |}).
Proof.
  unfold the_painter; simpl. now rewrite nth_error_snoc.
Qed.

Lemma store_painter_last pms pts pt pt' :
  store_painter (List.length pts) pt'
    {| g_QSvgRenderer := g; pixmaps := pms; painters := pts ++ [pt] |}
  = (Return tt,
     {| g_QSvgRenderer := g; pixmaps := pms; painters := pts ++ [pt'] |}).
Proof.
  unfold store_painter, with_painters; simpl. now rewrite update_snoc.
Qed.

Lemma QPixmap_fill_last pms pts pm c :
  QPixmap_fill (List.length pms) c
    {| g_QSvgRenderer := g; pixmaps := pms ++ [pm]; painters := pts |}
  = (Return tt,
     {| g_QSvgRenderer := g; pixmaps := pms ++ [fill c pm]; painters := pts |}).
Proof.
  unfold QPixmap_fill, bind.
  now rewrite the_pixmap_last, store_pixmap_last.
Qed.

Lemma QPainter_call_last pms pts pm :
  QPainter_call (List.length pms)
    {| g_QSvgRenderer := g; pixmaps := pms ++ [pm]; painters := pts |}
  = (Return (List.length pts),
     {| g_QSvgRenderer := g; pixmaps := pms ++ [pm];
        painters := pts ++ [{| pt_device := List.length pms;
                               pt_active := negb (isNull pm);
                               pt_hints := if isNull pm
                                           then []
                                           else [TextAntialiasing] |}] |}).
Proof.
  unfold QPainter_call, bind. now rewrite the_pixmap_last.
Qed.

Lemma QPainter_setRenderHint_last pms pts pt hint :
  QPainter_setRenderHint (List.length pts) hint
    {| g_QSvgRenderer := g; pixmaps := pms; painters := pts ++ [pt] |}
  = (Return tt,
     {| g_QSvgRenderer := g; pixmaps := pms;
        painters := pts ++ [{| pt_device := pt_device pt;
                               pt_active := pt_active pt;
                               pt_hints := if pt_active pt
                                           then hint :: pt_hints pt
                                           else pt_hints pt |}] |}).
Proof.
  unfold QPainter_setRenderHint, bind.
  rewrite the_painter_last.
  destruct pt as [dev [|] hints]; simpl; [|reflexivity].
  now rewrite store_painter_last.
Qed.

Lemma QPainter_end_last pms pts pt :
  QPainter_end (List.length pts)
    {| g_QSvgRenderer := g; pixmaps := pms; painters := pts ++ [pt] |}
  = (Return tt,
     {| g_QSvgRenderer := g; pixmaps := pms;
        painters := pts ++ [{| pt_device := pt_device pt;
                               pt_active := false;
                               pt_hints := [] |}] |}).
Proof.
  unfold QPainter_end, bind.
  now rewrite the_painter_last, store_painter_last.
Qed.

(** Rendering through the last painter, made for the last pixmap: the
    pixmap is painted when the painter is active, and a painter is
    inactive only on a null pixmap, which painting leaves as it is. *)
Lemma QSvgRenderer_render_last pms pts r pm hints :
  QSvgRenderer_render r (List.length pts)
    {| g_QSvgRenderer := g; pixmaps := pms ++ [pm];
       painters := pts ++ [{| pt_device := List.length pms;
                              pt_active := negb (isNull pm);
                              pt_hints := hints |}] |}
  = (Return tt,
     {| g_QSvgRenderer := g; pixmaps := pms ++ [render_on r hints pm];
        painters := pts ++ [{| pt_device := List.length pms;
                               pt_active := negb (isNull pm);
                               pt_hints := hints |}] |}).
Proof.
  unfold QSvgRenderer_render, bind.
  rewrite the_painter_last; simpl.
  destruct pm as [|pw ph rs]; simpl; [reflexivity|].
  now rewrite the_pixmap_last, store_pixmap_last.
Qed.

Lemma QIcon_call_last pms pts pm :
  QIcon_call (List.length pms)
    {| g_QSvgRenderer := g; pixmaps := pms ++ [pm]; painters := pts |}
  = (Return (icon_of_pixmap pm),
     {| g_QSvgRenderer := g; pixmaps := pms ++ [pm]; painters := pts |}).
Proof.
  unfold QIcon_call, bind. now rewrite the_pixmap_last.
Qed.
End Store.

(** ** [_svg_icon] *)

Lemma isNull_fill c pm : isNull (fill c pm) = isNull pm.
Proof. now destruct pm. Qed.

Lemma isNull_render_on r hints pm : isNull (render_on r hints pm) = isNull pm.
Proof. now destruct pm. Qed.

Lemma returns_outcome g svg size background :
  svg_icon_outcome g svg size background
  = match g with
    | None => Return null_icon
    | Some cls =>
        if fits_int size
        then Return (icon_of_pixmap (rendered_pixmap cls svg size background))
        else Raise OverflowError
    end.
Proof.
  unfold svg_icon_outcome, returns. destruct g as [cls|]; [|reflexivity].
  now destruct (fits_int size).
Qed.

Lemma svg_icon_run svg size background w :
  _svg_icon svg size background w
  = (svg_icon_outcome (g_QSvgRenderer w) svg size background,
     after_svg_icon w svg size background).
Proof.
  rewrite returns_outcome.
  destruct w as [g pms pts].
  unfold _svg_icon, after_svg_icon, rendered_pixmap, hints_at_render.
  unfold bind at 1. unfold load_QSvgRenderer at 1. simpl.
  destruct g as [cls|]; [|reflexivity].
  unfold bind at 1.
  unfold QSvgRenderer_call, bind at 1. unfold load_QSvgRenderer, ret at 1. simpl.
  unfold bind at 1. unfold QPixmap_call. rewrite andb_diag.
  destruct (fits_int size); [|reflexivity].
  unfold with_pixmaps at 1. simpl.
  unfold bind at 1.
  replace (match background with
           | Some c => QPixmap_fill (List.length pms) c
           | None => QPixmap_fill (List.length pms) transparent
           end)
    with (QPixmap_fill (List.length pms) (fill_color background))
    by now destruct background.
  rewrite QPixmap_fill_last.
  unfold bind at 1. rewrite QPainter_call_last.
  unfold bind at 1. rewrite QPainter_setRenderHint_last. simpl.
  unfold bind at 1. rewrite QSvgRenderer_render_last.
  unfold bind at 1. rewrite QPainter_end_last. simpl.
  rewrite QIcon_call_last, isNull_fill.
  now destruct (new_pixmap size size).
Qed.

Lemma after_svg_icon_global w svg size background :
  g_QSvgRenderer (after_svg_icon w svg size background) = g_QSvgRenderer w.
Proof.
  unfold after_svg_icon.
  destruct (g_QSvgRenderer w) eqn:E; simpl; [|exact E].
  now destruct (fits_int size).
Qed.

Lemma after_svg_icon_not_returned w svg size background :
  returns (g_QSvgRenderer w) size = false ->
  after_svg_icon w svg size background = w.
Proof.
  unfold returns, after_svg_icon.
  destruct (g_QSvgRenderer w); [|discriminate]. now intros ->.
Qed.

Lemma after_all_global size items :
  forall w, g_QSvgRenderer (after_all w size items) = g_QSvgRenderer w.
Proof.
  induction items as [|[k v] rest IH]; intro w; simpl; [reflexivity|].
  now rewrite IH, after_svg_icon_global.
Qed.

Lemma after_all_not_returned size items :
  forall w, returns (g_QSvgRenderer w) size = false -> after_all w size items = w.
Proof.
  induction items as [|[k v] rest IH]; intros w H; simpl; [reflexivity|].
  rewrite after_svg_icon_not_returned by exact H. now apply IH.
Qed.

(** The comprehension returns when every call of [_svg_icon] does, and
    raises at the first entry otherwise. *)
Lemma dict_comprehension_run size items :
  forall acc w,
    dict_comprehension (fun v => _svg_icon v size None) items acc w
    = if returns (g_QSvgRenderer w) size
         || match items with [] => true | _ :: _ => false end
      then (Return (icons_of (g_QSvgRenderer w) size items acc),
            after_all w size items)
      else (Raise OverflowError, w).
Proof.
  induction items as [|[k v] rest IH]; intros acc w; simpl.
  - now rewrite orb_true_r.
  - unfold bind. rewrite svg_icon_run. unfold svg_icon_outcome.
    rewrite orb_false_r.
    destruct (returns (g_QSvgRenderer w) size) eqn:E.
    + rewrite IH, after_svg_icon_global, E. reflexivity.
    + now rewrite after_svg_icon_not_returned by exact E.
Qed.

Lemma render_all_run documents size w :
  render_all documents size w
  = if returns (g_QSvgRenderer w) size
       || match documents with [] => true | _ :: _ => false end
    then (Return (icons_of (g_QSvgRenderer w) size documents []),
          after_all w size documents)
    else (Raise OverflowError, w).
Proof.
  unfold render_all, _svg_icon_default_background, Dict.items, Dict.empty.
  exact (dict_comprehension_run size documents [] w).
Qed.

(** ** Dictionaries *)

Section DictFacts.
Context {V : Type}.
Implicit Types (d : Dict.t V) (k : string) (v : V).

Lemma set_fresh k v d :
  ~ In k (Dict.keys d) -> Dict.set k v d = (d ++ [(k, v)])%list.
Proof.
  induction d as [|[k' v'] r IH]; simpl; intro H; [reflexivity|].
  destruct (String.eqb_spec k k') as [->|_]; [tauto|].
  rewrite IH; tauto.
Qed.

Lemma get_set_other k k' v d :
  k <> k' -> Dict.get k (Dict.set k' v d) = Dict.get k d.
Proof.
  intro H. induction d as [|[k2 v2] r IH]; simpl.
  - destruct (String.eqb_spec k k'); [contradiction | reflexivity].
  - destruct (String.eqb_spec k' k2) as [->|_]; simpl.
    + destruct (String.eqb_spec k k2); [contradiction | reflexivity].
    + now rewrite IH.
Qed.

Lemma get_remove_other k k' d :
  k <> k' -> Dict.get k (Dict.remove k' d) = Dict.get k d.
Proof.
  intro H. induction d as [|[k2 v2] r IH]; simpl; [reflexivity|].
  destruct (String.eqb_spec k' k2) as [->|_]; simpl.
  - destruct (String.eqb_spec k k2); [contradiction | reflexivity].
  - now rewrite IH.
Qed.

Lemma keys_set k v d :
  Dict.keys (Dict.set k v d)
  = if existsb (String.eqb k) (Dict.keys d) then Dict.keys d
    else (Dict.keys d ++ [k])%list.
Proof.
  induction d as [|[k' v'] r IH]; simpl; [reflexivity|].
  destruct (String.eqb k k'); simpl; [reflexivity|].
  rewrite IH. now destruct (existsb _ _).
Qed.

Lemma keys_set_NoDup k v d :
  NoDup (Dict.keys d) -> NoDup (Dict.keys (Dict.set k v d)).
Proof.
  intro H. rewrite keys_set.
  destruct (existsb (String.eqb k) (Dict.keys d)) eqn:E; [exact H|].
  apply NoDup_app; [exact H | repeat constructor; simpl; tauto |].
  intros x Hx [->|[]].
  assert (existsb (String.eqb x) (Dict.keys d) = true); [|congruence].
  apply existsb_exists. exists x. split; [exact Hx | apply String.eqb_refl].
Qed.

Lemma keys_remove_In k k' d :
  In k (Dict.keys (Dict.remove k' d)) -> In k (Dict.keys d).
Proof.
  induction d as [|[k2 v2] r IH]; simpl; [tauto|].
  destruct (String.eqb k' k2); simpl; tauto.
Qed.

Lemma keys_remove_NoDup k d :
  NoDup (Dict.keys d) -> NoDup (Dict.keys (Dict.remove k d)).
Proof.
  induction d as [|[k2 v2] r IH]; simpl; intro H; [constructor|].
  inversion H as [|? ? Hn Hr]; subst.
  destruct (String.eqb k k2); simpl; [exact Hr|].
  constructor; [|now apply IH].
  intro Hin. apply Hn. eapply keys_remove_In, Hin.
Qed.

Lemma fold_set_fresh (entries : list (string * V)) :
  forall acc,
    NoDup (Dict.keys acc ++ map fst entries) ->
    fold_left (fun d kv => Dict.set (fst kv) (snd kv) d) entries acc
    = (acc ++ entries)%list.
Proof.
  induction entries as [|[k v] rest IH]; intros acc H; simpl.
  - now rewrite app_nil_r.
  - simpl in H.
    rewrite set_fresh.
    + rewrite IH.
      * now rewrite <- app_assoc.
      * unfold Dict.keys in *. rewrite map_app, <- app_assoc. exact H.
    + apply NoDup_remove_2 in H. intro Hin. apply H.
      apply in_or_app. now left.
Qed.

Lemma literal_fresh (entries : list (string * V)) :
  NoDup (map fst entries) -> Dict.literal entries = entries.
Proof.
  intro H. unfold Dict.literal, Dict.empty.
  now rewrite fold_set_fresh.
Qed.

Lemma get_In k d : Dict.get k d <> None -> In k (Dict.keys d).
Proof.
  induction d as [|[k' v'] r IH]; simpl; [congruence|].
  destruct (String.eqb_spec k k') as [->|_]; [now left | right; auto].
Qed.

End DictFacts.

Lemma get_map {V W : Type} (f : V -> W) k (d : Dict.t V) :
  Dict.get k (map (fun kv => (fst kv, f (snd kv))) d)
  = option_map f (Dict.get k d).
Proof.
  induction d as [|[k' v'] r IH]; simpl; [reflexivity|].
  now destruct (String.eqb k k').
Qed.

Lemma keys_map {V W : Type} (f : V -> W) (d : Dict.t V) :
  Dict.keys (map (fun kv => (fst kv, f (snd kv))) d) = Dict.keys d.
Proof.
  unfold Dict.keys. rewrite map_map. now apply map_ext.
Qed.

(** With one entry per key the icons come out in the order of the
    documents, each the rendering of its own document. *)
Lemma icons_of_fresh g size items :
  forall acc,
    NoDup (Dict.keys acc ++ map fst items) ->
    icons_of g size items acc
    = (acc ++ map (fun kv => (fst kv, rendered_icon g (snd kv) size None))
                  items)%list.
Proof.
  induction items as [|[k v] rest IH]; intros acc H; simpl.
  - now rewrite app_nil_r.
  - simpl in H.
    rewrite set_fresh.
    + rewrite IH.
      * now rewrite <- app_assoc.
      * unfold Dict.keys in *. rewrite map_app, <- app_assoc. exact H.
    + apply NoDup_remove_2 in H. intro Hin. apply H.
      apply in_or_app. now left.
Qed.

Lemma icons_of_NoDup g size (documents : Dict.t string) :
  NoDup (Dict.keys documents) ->
  icons_of g size documents []
  = map (fun kv => (fst kv, rendered_icon g (snd kv) size None)) documents.
Proof.
  intro H. now rewrite icons_of_fresh.
Qed.

(** ** The table of documents *)

Lemma distinct_NoDup l : distinct l = true -> NoDup l.
Proof.
  induction l as [|a r IH]; simpl; intro H; [constructor|].
  apply andb_prop in H as [Ha Hr].
  constructor; [|now apply IH].
  intro Hin.
  assert (E : existsb (String.eqb a) r = true).
  { apply existsb_exists. exists a. split; [exact Hin | apply String.eqb_refl]. }
  rewrite E in Ha. discriminate.
Qed.

Lemma icon_names_NoDup : NoDup icon_names.
Proof. apply distinct_NoDup. reflexivity. Qed.

Lemma base_header size : base size = header size.
Proof. reflexivity. Qed.

Lemma svgs_documents size :
  svgs size = map (fun s => (fst s, document size (snd s))) shapes.
Proof. reflexivity. Qed.

Lemma svgs_keys size : Dict.keys (svgs size) = icon_names.
Proof. reflexivity. Qed.

Lemma mem_keys {V : Type} k (d : Dict.t V) :
  Dict.mem k d = existsb (String.eqb k) (Dict.keys d).
Proof.
  unfold Dict.mem.
  induction d as [|[k' v'] r IH]; simpl; [reflexivity|].
  now destruct (String.eqb k k').
Qed.

(** ** [toolbar_icons] *)

Lemma fits_int_range n : fits_int n = true <-> in_int_range n.
Proof.
  unfold fits_int, in_int_range. rewrite andb_true_iff, !Z.leb_le. tauto.
Qed.

Lemma fits_int_not_range n : fits_int n = false <-> ~ in_int_range n.
Proof.
  rewrite <- fits_int_range. destruct (fits_int n); split; congruence.
Qed.

Lemma returns_iff g size :
  returns g size = true <-> g = None \/ in_int_range size.
Proof.
  unfold returns. destruct g as [cls|].
  - rewrite fits_int_range. split; [now right | now intros [H|H]].
  - split; [now left | reflexivity].
Qed.

Lemma returns_false_iff g size :
  returns g size = false <-> g <> None /\ ~ in_int_range size.
Proof.
  unfold returns. destruct g as [cls|].
  - rewrite fits_int_not_range. split; [now split | tauto].
  - split; [discriminate | tauto].
Qed.

Lemma svgs_not_empty size :
  match svgs size with [] => true | _ :: _ => false end = false.
Proof. now rewrite svgs_documents. Qed.

Lemma toolbar_icons_run size w :
  toolbar_icons size w
  = if returns (g_QSvgRenderer w) size
    then (Return (icon_table (g_QSvgRenderer w) size),
          after_all w size (svgs size))
    else (Raise OverflowError, w).
Proof.
  unfold toolbar_icons.
  rewrite render_all_run, svgs_not_empty, orb_false_r.
  rewrite icons_of_NoDup; [reflexivity|].
  rewrite svgs_keys. exact icon_names_NoDup.
Qed.

Lemma toolbar_icons_returns size w :
  g_QSvgRenderer w = None \/ in_int_range size ->
  toolbar_icons size w
  = (Return (icon_table (g_QSvgRenderer w) size), after_all w size (svgs size)).
Proof.
  intro H. apply returns_iff in H. now rewrite toolbar_icons_run, H.
Qed.

Lemma toolbar_icons_raises size w :
  g_QSvgRenderer w <> None -> ~ in_int_range size ->
  toolbar_icons size w = (Raise OverflowError, w).
Proof.
  intros Hg Hs. rewrite toolbar_icons_run.
  now replace (returns (g_QSvgRenderer w) size) with false
    by (symmetry; apply returns_false_iff; split; assumption).
Qed.

Lemma icon_table_keys g size : Dict.keys (icon_table g size) = icon_names.
Proof.
  unfold icon_table.
  now rewrite (keys_map (fun svg => rendered_icon g svg size None)), svgs_keys.
Qed.

Lemma icon_table_get g size k :
  Dict.get k (icon_table g size)
  = option_map (fun svg => rendered_icon g svg size None)
               (Dict.get k (svgs size)).
Proof.
  apply (get_map (fun svg => rendered_icon g svg size None)).
Qed.

(** ** Pixmaps *)

Lemma mapi_length {A B : Type} (f : Z -> A -> B) l :
  forall i, List.length (mapi f i l) = List.length l.
Proof.
  induction l as [|a r IH]; intro i; simpl; [reflexivity | now rewrite IH].
Qed.

Lemma mapi_Forall {A B : Type} (P : A -> Prop) (Q : B -> Prop)
    (f : Z -> A -> B) l :
  (forall i a, P a -> Q (f i a)) ->
  Forall P l -> forall i, Forall Q (mapi f i l).
Proof.
  intros Hf H. induction H as [|a r Ha _ IH]; intro i; simpl; constructor; auto.
Qed.

Lemma map_Forall {A B : Type} (P : A -> Prop) (Q : B -> Prop) (f : A -> B) l :
  (forall a, P a -> Q (f a)) -> Forall P l -> Forall Q (map f l).
Proof.
  intros Hf H. induction H; simpl; constructor; auto.
Qed.

Lemma repeat_Forall {A : Type} (P : A -> Prop) a n : P a -> Forall P (repeat a n).
Proof.
  intro H. induction n; simpl; constructor; auto.
Qed.

Lemma new_pixmap_positive size :
  0 < size ->
  new_pixmap size size
  = Pixmap size size
      (repeat (repeat Uninitialised (Z.to_nat size)) (Z.to_nat size)).
Proof.
  intro H. unfold new_pixmap.
  now replace (0 <? size) with true by (symmetry; apply Z.ltb_lt; exact H).
Qed.

Lemma new_pixmap_not_positive size : size <= 0 -> new_pixmap size size = NullPixmap.
Proof.
  intro H. unfold new_pixmap.
  now replace (0 <? size) with false by (symmetry; apply Z.ltb_ge; exact H).
Qed.

Lemma new_pixmap_square size : 0 < size -> square size (new_pixmap size size).
Proof.
  intro H. rewrite new_pixmap_positive by exact H.
  repeat split; simpl.
  - apply repeat_length.
  - apply repeat_Forall, repeat_length.
Qed.

Lemma fill_square size c pm : square size pm -> square size (fill c pm).
Proof.
  destruct pm as [|pw ph rs]; [exact (fun H => H)|].
  intros (Hw & Hh & Hl & Hr). repeat split; simpl in *; try assumption.
  - now rewrite length_map.
  - revert Hr. apply map_Forall. intros row E. now rewrite length_map.
Qed.

Lemma render_on_square size r hints pm :
  square size pm -> square size (render_on r hints pm).
Proof.
  destruct pm as [|pw ph rs]; [exact (fun H => H)|].
  intros (Hw & Hh & Hl & Hr). repeat split; simpl in *; try assumption.
  - now rewrite mapi_length.
  - apply mapi_Forall with (P := fun row => List.length row = Z.to_nat size);
      [|exact Hr].
    intros y row E. now rewrite mapi_length.
Qed.

Lemma rendered_pixmap_square cls svg size background :
  0 < size -> square size (rendered_pixmap cls svg size background).
Proof.
  intro H. apply render_on_square, fill_square, new_pixmap_square, H.
Qed.

Lemma rendered_pixmap_isNull cls svg size background :
  isNull (rendered_pixmap cls svg size background) = negb (0 <? size).
Proof.
  unfold rendered_pixmap. rewrite isNull_render_on, isNull_fill.
  unfold new_pixmap. now destruct (0 <? size).
Qed.

Lemma rendered_icon_square cls svg size background :
  0 < size -> backed_by_square size (rendered_icon (Some cls) svg size background).
Proof.
  intro H. exists (rendered_pixmap cls svg size background).
  assert (E : isNull (rendered_pixmap cls svg size background) = false).
  { rewrite rendered_pixmap_isNull.
    now replace (0 <? size) with true by (symmetry; apply Z.ltb_lt; exact H). }
  simpl. unfold icon_of_pixmap. rewrite E.
  repeat split; try apply rendered_pixmap_square; auto.
Qed.

(** ** The claims *)

(** C1, as stated, fails with the renderer class bound at a size that is
    no C [int]: [QPixmap(size, size)] raises [OverflowError] for the first
    document, and no dictionary is returned. *)
Lemma toolbar_icons_beyond_int_no_keys :
  toolbar_icons 2147483648 (loaded (Some diagonal_class))
  = (Raise OverflowError, loaded (Some diagonal_class))
  /\ ~ exists icons w',
         toolbar_icons 2147483648 (loaded (Some diagonal_class))
         = (Return icons, w').
Proof.
  assert (E : toolbar_icons 2147483648 (loaded (Some diagonal_class))
              = (Raise OverflowError, loaded (Some diagonal_class))).
  { now rewrite toolbar_icons_run. }
  split; [exact E|]. intros (icons & w' & H). rewrite E in H. discriminate H.
Qed.

(** C1, amended: for every size in the range of a C [int], and for every
    size when the renderer class is not bound, [toolbar_icons] returns a
    dictionary whose keys are exactly the ten fixed names, each of them
    once and no other key. *)
Theorem toolbar_icons_keys size w :
  g_QSvgRenderer w = None \/ in_int_range size ->
  exists icons w',
    toolbar_icons size w = (Return icons, w')
    /\ Dict.keys icons = icon_names
    /\ forall k, Dict.mem k icons = existsb (String.eqb k) icon_names.
Proof.
  intro H. rewrite toolbar_icons_returns by exact H.
  do 2 eexists. split; [reflexivity|].
  split; [apply icon_table_keys|].
  intro k. now rewrite mem_keys, icon_table_keys.
Qed.

Lemma toolbar_icons_keys_witness :
  exists icons w',
    toolbar_icons (-2147483648) (loaded (Some diagonal_class))
    = (Return icons, w')
    /\ Dict.keys icons = icon_names
    /\ forall k, Dict.mem k icons = existsb (String.eqb k) icon_names.
Proof.
  apply (toolbar_icons_keys (-2147483648) (loaded (Some diagonal_class))).
  right. unfold in_int_range, INT_MIN, INT_MAX. lia.
Defined.

(** C2, as stated, fails where the renderer could not be imported: the icon
    of [pan] for size 24 is then the null icon, which has no bitmap. *)
Lemma toolbar_icons_without_renderer_not_square :
  exists icons w' icon,
    toolbar_icons 24 (loaded None) = (Return icons, w')
    /\ Dict.get "pan" icons = Some icon
    /\ ~ backed_by_square 24 icon.
Proof.
  rewrite toolbar_icons_run. do 3 eexists.
  split; [reflexivity|]. split; [reflexivity|].
  intros (pm & E & _). discriminate E.
Qed.

(** C2, amended: when the renderer class is bound, for every positive size
    in the range of a C [int] every value of the dictionary returned by
    [toolbar_icons] is an icon that holds one bitmap of exactly [size] by
    [size] pixels. *)
Theorem toolbar_icons_square size w cls :
  g_QSvgRenderer w = Some cls ->
  0 < size <= INT_MAX ->
  exists icons w',
    toolbar_icons size w = (Return icons, w')
    /\ Dict.keys icons = icon_names
    /\ forall k icon,
         Dict.get k icons = Some icon -> backed_by_square size icon.
Proof.
  intros Hg [Hs Hmax]. rewrite toolbar_icons_returns, Hg.
  2:{ right. unfold in_int_range, INT_MIN. lia. }
  do 2 eexists.
  split; [reflexivity|]. split.
  - apply icon_table_keys.
  - intros k icon. rewrite icon_table_get.
    destruct (Dict.get k (svgs size)) as [svg|]; simpl; [|discriminate].
    intros [= <-]. now apply rendered_icon_square.
Qed.

Lemma toolbar_icons_square_witness :
  exists icons w',
    toolbar_icons 24 (loaded (Some diagonal_class)) = (Return icons, w')
    /\ Dict.keys icons = icon_names
    /\ forall k icon,
         Dict.get k icons = Some icon -> backed_by_square 24 icon.
Proof.
  apply (toolbar_icons_square 24 (loaded (Some diagonal_class)) diagonal_class);
    [reflexivity | unfold INT_MAX; lia].
Defined.

Lemma toolbar_icons_result size w :
  fst (toolbar_icons size w)
  = if returns (g_QSvgRenderer w) size
    then Return (icon_table (g_QSvgRenderer w) size)
    else Raise OverflowError.
Proof.
  rewrite toolbar_icons_run. now destruct (returns (g_QSvgRenderer w) size).
Qed.

Lemma toolbar_icons_state size w :
  snd (toolbar_icons size w) = after_all w size (svgs size).
Proof.
  rewrite toolbar_icons_run.
  destruct (returns (g_QSvgRenderer w) size) eqn:E; [reflexivity|].
  now rewrite after_all_not_returned.
Qed.

(** ** The store after a call *)

Lemma after_all_without_renderer size items :
  forall w, g_QSvgRenderer w = None -> after_all w size items = w.
Proof.
  induction items as [|[k v] rest IH]; intros w H; simpl; [reflexivity|].
  unfold after_svg_icon. rewrite H. now apply IH.
Qed.

Lemma after_all_pixmaps size items :
  forall w,
    pixmaps (after_all w size items)
    = (pixmaps w ++ new_pixmaps (g_QSvgRenderer w) size items)%list.
Proof.
  induction items as [|[k v] rest IH]; intro w; simpl.
  - unfold new_pixmaps.
    destruct (g_QSvgRenderer w); [destruct (fits_int size)|];
      now rewrite app_nil_r.
  - rewrite IH, after_svg_icon_global.
    unfold after_svg_icon, new_pixmaps.
    destruct (g_QSvgRenderer w); [destruct (fits_int size)|]; simpl;
      try reflexivity.
    now rewrite <- app_assoc.
Qed.

Lemma after_all_painters size items :
  forall w,
    exists pts,
      painters (after_all w size items) = (painters w ++ pts)%list
      /\ Forall (fun pt => pt_active pt = false) pts
      /\ List.length pts = List.length (new_pixmaps (g_QSvgRenderer w) size items).
Proof.
  induction items as [|[k v] rest IH]; intro w; simpl.
  - exists []. rewrite app_nil_r. repeat split; [constructor|].
    unfold new_pixmaps.
    now destruct (g_QSvgRenderer w); [destruct (fits_int size)|].
  - destruct (IH (after_svg_icon w v size None)) as (pts & E & Hall & Hlen).
    rewrite after_svg_icon_global in Hlen. rewrite E.
    unfold after_svg_icon, new_pixmaps in *.
    destruct (g_QSvgRenderer w) as [cls|]; [destruct (fits_int size)|]; simpl.
    + eexists (_ :: pts). rewrite <- app_assoc. simpl.
      repeat split; [constructor; [reflexivity | exact Hall] |].
      now rewrite Hlen.
    + exists pts. repeat split; assumption.
    + exists pts. repeat split; assumption.
Qed.

Lemma icon_table_without_renderer size :
  icon_table None size = map (fun k => (k, null_icon)) icon_names.
Proof.
  unfold icon_table. rewrite <- (svgs_keys size). unfold Dict.keys.
  now rewrite map_map.
Qed.

(** C3: when the import of the renderer raises an exception and the module
    binds [QSvgRenderer] to [None], neither [_svg_icon] nor [toolbar_icons]
    raises: [_svg_icon] returns the null icon and does nothing else, and
    [toolbar_icons] returns the dictionary of the ten names, every one of
    them with the null icon. *)
Theorem renderer_unavailable_null_icons e w :
  module_init (Raise e) = Return (g_QSvgRenderer w) ->
  g_QSvgRenderer w = None
  /\ (forall svg size background,
        _svg_icon svg size background w = (Return null_icon, w))
  /\ (forall size,
        toolbar_icons size w
        = (Return (map (fun k => (k, null_icon)) icon_names), w)).
Proof.
  intro H.
  assert (Hg : g_QSvgRenderer w = None).
  { unfold module_init in H. destruct (is_Exception e); [|discriminate H].
    now injection H as <-. }
  split; [exact Hg|]. split.
  - intros svg size background. rewrite svg_icon_run.
    unfold after_svg_icon. now rewrite Hg.
  - intro size. rewrite toolbar_icons_run, Hg.
    rewrite icon_table_without_renderer.
    now rewrite after_all_without_renderer.
Qed.

Lemma renderer_unavailable_null_icons_witness :
  g_QSvgRenderer (loaded None) = None
  /\ (forall svg size background,
        _svg_icon svg size background (loaded None)
        = (Return null_icon, loaded None))
  /\ (forall size,
        toolbar_icons size (loaded None)
        = (Return (map (fun k => (k, null_icon)) icon_names), loaded None)).
Proof.
  apply (renderer_unavailable_null_icons ImportError (loaded None)).
  reflexivity.
Defined.

(** C4: [toolbar_icons] is deterministic and keeps no state.  A second call
    with the same size, run in the state the first one left, ends as the
    first did: it returns the same dictionary, pixel for pixel (or raises
    the same [OverflowError], for a size that is no C [int] with the
    renderer bound).  The outcome depends on the store of toolkit objects
    not at all, and a call with any other size made afterwards ends as it
    would have before.  Each call that returns renders anew: it adds its
    own pixmaps to the store, one per document when the renderer is bound,
    and as many painters, all of them ended; a call that raises adds
    nothing.  What was there before the call is as it was: the global name
    and every object of the store. *)
Theorem toolbar_icons_deterministic_stateless size size' w :
  let w1 := snd (toolbar_icons size w) in
  fst (toolbar_icons size w1) = fst (toolbar_icons size w)
  /\ fst (toolbar_icons size' w1) = fst (toolbar_icons size' w)
  /\ (forall pms pts,
        fst (toolbar_icons size
               {| g_QSvgRenderer := g_QSvgRenderer w;
                  pixmaps := pms; painters := pts |})
        = fst (toolbar_icons size w))
  /\ fst (toolbar_icons size w)
     = (if returns (g_QSvgRenderer w) size
        then Return (icon_table (g_QSvgRenderer w) size)
        else Raise OverflowError)
  /\ g_QSvgRenderer w1 = g_QSvgRenderer w
  /\ pixmaps w1
     = (pixmaps w ++ new_pixmaps (g_QSvgRenderer w) size (svgs size))%list
  /\ pixmaps (snd (toolbar_icons size w1))
     = (pixmaps w1 ++ new_pixmaps (g_QSvgRenderer w) size (svgs size))%list
  /\ List.length (new_pixmaps (g_QSvgRenderer w) size (svgs size))
     = match g_QSvgRenderer w with
       | Some _ => if fits_int size then 10%nat else 0%nat
       | None => 0%nat
       end
  /\ exists pts,
       painters w1 = (painters w ++ pts)%list
       /\ Forall (fun pt => pt_active pt = false) pts.
Proof.
  intro w1. subst w1.
  rewrite !toolbar_icons_result, !toolbar_icons_state.
  rewrite !after_all_pixmaps, !after_all_global.
  split; [reflexivity|]. split; [reflexivity|]. split.
  { intros pms pts. now rewrite toolbar_icons_result. }
  do 4 (split; [reflexivity|]). split.
  - unfold new_pixmaps. destruct (g_QSvgRenderer w); [|reflexivity].
    destruct (fits_int size); [|reflexivity].
    rewrite length_map, <- (length_map fst).
    change (map fst (svgs size)) with (Dict.keys (svgs size)).
    now rewrite svgs_keys.
  - destruct (after_all_painters size (svgs size) w) as (pts & E & Hall & _).
    exists pts. split; assumption.
Qed.

(** ** The pixels of a rendered pixmap *)

Lemma fill_all c pm : all_pixels (fun p => p = Filled c) (fill c pm).
Proof.
  destruct pm as [|pw ph rs]; [constructor|].
  unfold all_pixels; simpl.
  induction rs as [|row rs IH]; simpl; constructor; [|exact IH].
  induction row; simpl; constructor; auto.
Qed.

Lemma render_on_all (P Q : Pixel -> Prop) r hints pm :
  (forall x y p,
      P p ->
      Q (paint_pixel
           (rasterize (r_class r) (r_contents r) (width pm) (height pm) hints x y)
           p)) ->
  all_pixels P pm -> all_pixels Q (render_on r hints pm).
Proof.
  destruct pm as [|pw ph rs]; [constructor|].
  unfold all_pixels; simpl. intros Hp Hall.
  apply mapi_Forall with (P := Forall P); [|exact Hall].
  intros y row Hrow.
  apply mapi_Forall with (P := P); [|exact Hrow].
  intros x p. apply Hp.
Qed.

Lemma rendered_pixmap_defined cls svg size background :
  all_pixels
    (fun p => defined p = true /\ background_of p = Filled (fill_color background))
    (rendered_pixmap cls svg size background).
Proof.
  unfold rendered_pixmap.
  apply render_on_all with (P := fun p => p = Filled (fill_color background));
    [|apply fill_all].
  intros x y p ->. now destruct (rasterize _ _ _ _ _ _ _).
Qed.

Lemma rendered_pixmap_blank cls svg size background :
  (forall w h hints x y,
      rasterize cls (bytearray_utf8 svg) w h hints x y = None) ->
  all_pixels (fun p => p = Filled (fill_color background))
    (rendered_pixmap cls svg size background).
Proof.
  intro H. unfold rendered_pixmap.
  apply render_on_all with (P := fun p => p = Filled (fill_color background));
    [|apply fill_all].
  intros x y p ->. simpl. now rewrite H.
Qed.

Lemma icon_of_pixmap_In pm pm0 :
  In pm (icon_pixmaps (icon_of_pixmap pm0)) -> pm = pm0 /\ isNull pm0 = false.
Proof.
  unfold icon_of_pixmap. destruct (isNull pm0); simpl; [tauto|].
  intros [<-|[]]. now split.
Qed.

Lemma rendered_icon_In g svg size background pm :
  In pm (icon_pixmaps (rendered_icon g svg size background)) ->
  exists cls, g = Some cls /\ pm = rendered_pixmap cls svg size background.
Proof.
  destruct g as [cls|]; simpl; [|tauto].
  intro H. apply icon_of_pixmap_In in H as [-> _]. now exists cls.
Qed.

Lemma rendered_pixmap_pixels cls svg size background :
  all_pixels
    (fun p => p = Filled (fill_color background)
              \/ exists src, p = Over src (Filled (fill_color background)))
    (rendered_pixmap cls svg size background).
Proof.
  unfold rendered_pixmap.
  apply render_on_all with (P := fun p => p = Filled (fill_color background));
    [|apply fill_all].
  intros x y p ->. destruct (rasterize _ _ _ _ _ _ _) as [src|]; simpl.
  - right. now exists src.
  - now left.
Qed.

Lemma all_pixels_impl (P Q : Pixel -> Prop) pm :
  (forall p, P p -> Q p) -> all_pixels P pm -> all_pixels Q pm.
Proof.
  intros H Hall. unfold all_pixels in *.
  eapply Forall_impl; [|exact Hall].
  intros row Hrow. eapply Forall_impl; [exact H | exact Hrow].
Qed.

Lemma all_pixels_at (P : Pixel -> Prop) pm x y p :
  all_pixels P pm -> pixel_at pm x y = Some p -> P p.
Proof.
  unfold all_pixels, pixel_at. intros Hall H.
  destruct (nth_error (rows pm) y) as [row|] eqn:E; [|discriminate].
  apply nth_error_In in E, H.
  rewrite Forall_forall in Hall. specialize (Hall row E).
  rewrite Forall_forall in Hall. now apply Hall.
Qed.

Lemma icon_table_In g size k icon pm :
  Dict.get k (icon_table g size) = Some icon ->
  In pm (icon_pixmaps icon) ->
  exists cls svg,
    g = Some cls
    /\ Dict.get k (svgs size) = Some svg
    /\ pm = rendered_pixmap cls svg size None
    /\ isNull pm = false.
Proof.
  rewrite icon_table_get.
  destruct (Dict.get k (svgs size)) as [svg|]; simpl; [|discriminate].
  intros [= <-] Hin.
  destruct g as [cls|]; simpl in Hin; [|tauto].
  apply icon_of_pixmap_In in Hin as [-> Hn].
  now exists cls, svg.
Qed.

(** C5: for every size, each of the ten documents is the header, then the
    shape elements of its name, which do not depend on the size, then the
    end tag; the header is the start tag of [svg] with [width] and [height]
    set to the size, the view box [0 0 24 24] whatever the size, a black
    stroke 1.4 wide, round line caps and joins, and no fill. *)
Theorem svgs_header_shapes_end_tag size :
  svgs size
  = map (fun s => (fst s,
                   base size ++ String.concat EmptyString (snd s) ++ "</svg>"))
        shapes
  /\ base size
     = start_tag "svg"
         [ ("xmlns", "http://www.w3.org/2000/svg");
           ("width", str size);
           ("height", str size);
           ("viewBox", "0 0 24 24");
           ("fill", "none");
           ("stroke", "black");
           ("stroke-width", "1.4");
           ("stroke-linecap", "round");
           ("stroke-linejoin", "round") ]
  /\ map fst shapes = icon_names
  /\ forallb (fun s => forallb shape_element (snd s)) shapes = true.
Proof.
  split; [|split; [|split]].
  - rewrite svgs_documents. apply map_ext. intros [k elems].
    unfold document. now rewrite <- base_header.
  - apply base_header.
  - reflexivity.
  - reflexivity.
Qed.

(** C6: [toolbar_icons] calls [_svg_icon] on every document with no
    background, so that each entry of the dictionary is what [_svg_icon]
    returns for the document of that entry with [background] absent; with
    [background] absent [_svg_icon], where it renders at all, fills the new
    square pixmap with [transparent] and then renders the document on it
    with the hint [Antialiasing] set (beside [TextAntialiasing], which the
    painter began with); hence in every bitmap of every icon that
    [toolbar_icons] returns every pixel is [transparent] below what the
    document painted on it, and is [transparent] where it painted nothing.
    Icons are returned for every size in the range of a C [int], and for
    every size when the renderer is not bound; for any other size the call
    raises [OverflowError] and returns no icon. *)
Theorem toolbar_icons_transparent_background size w :
  (g_QSvgRenderer w = None \/ in_int_range size ->
   exists icons w',
     toolbar_icons size w = (Return icons, w')
     /\ map (fun kv => (fst kv, Return (snd kv))) icons
        = map (fun kv => (fst kv, fst (_svg_icon (snd kv) size None w)))
              (svgs size)
     /\ (forall svg,
           fst (_svg_icon svg size None w)
           = Return
               match g_QSvgRenderer w with
               | None => null_icon
               | Some cls =>
                   icon_of_pixmap
                     (render_on {| r_class := cls;
                                   r_contents := bytearray_utf8 svg |}
                        [Antialiasing; TextAntialiasing]
                        (fill transparent (new_pixmap size size)))
               end)
     /\ all_pixels (fun p => p = Filled transparent)
          (fill transparent (new_pixmap size size))
     /\ (forall k icon pm,
           Dict.get k icons = Some icon ->
           In pm (icon_pixmaps icon) ->
           all_pixels (fun p => background_of p = Filled transparent) pm)
     /\ (forall k icon pm x y p,
           Dict.get k icons = Some icon ->
           In pm (icon_pixmaps icon) ->
           pixel_at pm x y = Some p ->
           p = Filled transparent
           \/ exists src, p = Over src (Filled transparent)))
  /\ (g_QSvgRenderer w <> None -> ~ in_int_range size ->
      toolbar_icons size w = (Raise OverflowError, w)).
Proof.
  split; [|apply toolbar_icons_raises].
  intro H. rewrite toolbar_icons_returns by exact H.
  apply returns_iff in H.
  assert (E : forall svg,
             fst (_svg_icon svg size None w)
             = Return (rendered_icon (g_QSvgRenderer w) svg size None)).
  { intro svg. rewrite svg_icon_run. unfold svg_icon_outcome. now rewrite H. }
  do 2 eexists. split; [reflexivity|].
  split; [|split; [|split; [|split]]].
  - unfold icon_table. rewrite map_map. apply map_ext. intros [k svg].
    now rewrite E.
  - intro svg. rewrite E. reflexivity.
  - apply fill_all.
  - intros k icon pm Hget Hin.
    destruct (icon_table_In _ _ _ _ _ Hget Hin) as (cls & svg & _ & _ & -> & _).
    eapply all_pixels_impl; [|apply rendered_pixmap_defined].
    now intros p [_ Hp].
  - intros k icon pm x y p Hget Hin Hp.
    destruct (icon_table_In _ _ _ _ _ Hget Hin) as (cls & svg & _ & _ & -> & _).
    exact (all_pixels_at _ _ _ _ _ (rendered_pixmap_pixels cls svg size None) Hp).
Qed.

Lemma toolbar_icons_transparent_background_witness :
  exists icons icon pm,
    fst (toolbar_icons 2 (loaded (Some diagonal_class))) = Return icons
    /\ Dict.get "pan" icons = Some icon
    /\ In pm (icon_pixmaps icon)
    /\ pixel_at pm 1 0 = Some (Filled transparent)
    /\ all_pixels (fun p => background_of p = Filled transparent) pm.
Proof.
  destruct (toolbar_icons_transparent_background 2 (loaded (Some diagonal_class)))
    as [Hret _].
  destruct Hret as (icons & w' & Hrun & _ & _ & _ & Hbg & _).
  { right. unfold in_int_range, INT_MIN, INT_MAX. lia. }
  assert (E : icons = icon_table (Some diagonal_class) 2).
  { apply Return_inj.
    transitivity (fst (toolbar_icons 2 (loaded (Some diagonal_class))));
      [now rewrite Hrun | now rewrite toolbar_icons_result]. }
  destruct (Dict.get "pan" (svgs 2)) as [svg|] eqn:Esvg; [|discriminate Esvg].
  assert (Hget : Dict.get "pan" icons
                 = Some (rendered_icon (Some diagonal_class) svg 2 None)).
  { rewrite E, icon_table_get, Esvg. reflexivity. }
  assert (Hin : In (rendered_pixmap diagonal_class svg 2 None)
                   (icon_pixmaps (rendered_icon (Some diagonal_class) svg 2 None))).
  { left. reflexivity. }
  exists icons, (rendered_icon (Some diagonal_class) svg 2 None),
    (rendered_pixmap diagonal_class svg 2 None).
  split; [now rewrite Hrun|]. split; [exact Hget|]. split; [exact Hin|].
  split; [reflexivity|].
  exact (Hbg "pan" _ _ Hget Hin).
Defined.

(** ** One table of documents against another *)

Lemma render_all_icon_for documents size w k :
  NoDup (Dict.keys documents) ->
  icon_for k (render_all documents size w)
  = if returns (g_QSvgRenderer w) size
       || match documents with [] => true | _ :: _ => false end
    then option_map (fun svg => rendered_icon (g_QSvgRenderer w) svg size None)
                    (Dict.get k documents)
    else None.
Proof.
  intro H. unfold icon_for. rewrite render_all_run.
  destruct (returns (g_QSvgRenderer w) size || _); [|reflexivity].
  cbn [fst]. rewrite icons_of_NoDup by exact H.
  apply (get_map (fun svg => rendered_icon (g_QSvgRenderer w) svg size None)).
Qed.

Lemma svgs_NoDup size : NoDup (Dict.keys (svgs size)).
Proof. rewrite svgs_keys. exact icon_names_NoDup. Qed.

Lemma set_not_empty {V : Type} k (v : V) d :
  match Dict.set k v d with [] => true | _ :: _ => false end = false.
Proof.
  destruct d as [|[k' v'] r]; simpl; [reflexivity|].
  now destruct (String.eqb k k').
Qed.

Lemma remove_not_empty {V : Type} k (a b : string * V) d :
  match Dict.remove k (a :: b :: d) with [] => true | _ :: _ => false end
  = false.
Proof.
  destruct a as [ka va], b as [kb vb]; simpl.
  now destruct (String.eqb k ka).
Qed.

Lemma svgs_remove_not_empty size k :
  match Dict.remove k (svgs size) with [] => true | _ :: _ => false end = false.
Proof.
  rewrite svgs_documents. apply remove_not_empty.
Qed.

(** C7: the icons of different keys do not depend on each other.  The icon
    of a name is the rendering of the document of that name alone, at the
    given size (where the call returns: there is no icon at all where it
    raises [OverflowError]); so when the document of one name is replaced
    by any other text, or its entry is removed from the table, the icon of
    every other name is the same, pixel for pixel. *)
Theorem icons_independent size w k k' svg' :
  k <> k' ->
  icon_for k (toolbar_icons size w)
  = (if returns (g_QSvgRenderer w) size
     then option_map
            (fun svg => rendered_icon (g_QSvgRenderer w) svg size None)
            (Dict.get k (svgs size))
     else None)
  /\ icon_for k (render_all (Dict.set k' svg' (svgs size)) size w)
     = icon_for k (toolbar_icons size w)
  /\ icon_for k (render_all (Dict.remove k' (svgs size)) size w)
     = icon_for k (toolbar_icons size w).
Proof.
  intro H. unfold toolbar_icons.
  rewrite !render_all_icon_for;
    try apply svgs_NoDup;
    try (apply keys_set_NoDup, svgs_NoDup);
    try (apply keys_remove_NoDup, svgs_NoDup).
  rewrite svgs_not_empty, set_not_empty, svgs_remove_not_empty, !orb_false_r.
  now rewrite get_set_other, get_remove_other.
Qed.

Lemma icons_independent_witness :
  icon_for "pan" (toolbar_icons 24 (loaded (Some diagonal_class)))
  = option_map
      (fun svg => rendered_icon (Some diagonal_class) svg 24 None)
      (Dict.get "pan" (svgs 24))
  /\ icon_for "pan"
       (render_all (Dict.set "undo" "<svg" (svgs 24)) 24
          (loaded (Some diagonal_class)))
     = icon_for "pan" (toolbar_icons 24 (loaded (Some diagonal_class)))
  /\ icon_for "pan"
       (render_all (Dict.remove "undo" (svgs 24)) 24
          (loaded (Some diagonal_class)))
     = icon_for "pan" (toolbar_icons 24 (loaded (Some diagonal_class))).
Proof.
  apply (icons_independent 24 (loaded (Some diagonal_class)) "pan" "undo" "<svg").
  discriminate.
Defined.

(** C8, as stated, fails where the renderer could not be imported: the
    call without an argument returns the null icon under [pan], which has no
    bitmap of 24 by 24 pixels. *)
Lemma default_call_without_renderer_not_square :
  exists icons w' icon,
    call_toolbar_icons None (loaded None) = (Return icons, w')
    /\ Dict.get "pan" icons = Some icon
    /\ ~ backed_by_square 24 icon.
Proof.
  unfold call_toolbar_icons. rewrite toolbar_icons_run. do 3 eexists.
  split; [reflexivity|]. split; [reflexivity|].
  intros (pm & E & _). discriminate E.
Qed.

(** C8, amended: a call of [toolbar_icons] without an argument is the call
    with the size 24; when the renderer class is bound it returns, under
    each of the ten names, an icon that holds one bitmap of 24 by 24
    pixels. *)
Theorem default_call_24 w cls :
  g_QSvgRenderer w = Some cls ->
  call_toolbar_icons None w = toolbar_icons 24 w
  /\ exists icons w',
       call_toolbar_icons None w = (Return icons, w')
       /\ Dict.keys icons = icon_names
       /\ forall k icon,
            Dict.get k icons = Some icon -> backed_by_square 24 icon.
Proof.
  intro Hg. split; [reflexivity|].
  unfold call_toolbar_icons, toolbar_icons_default_size.
  rewrite toolbar_icons_run, Hg. do 2 eexists.
  split; [reflexivity|]. split; [apply icon_table_keys|].
  intros k icon. rewrite icon_table_get.
  destruct (Dict.get k (svgs 24)) as [svg|]; simpl; [|discriminate].
  intros [= <-]. apply rendered_icon_square. lia.
Qed.

Lemma default_call_24_witness :
  call_toolbar_icons None (loaded (Some diagonal_class))
  = toolbar_icons 24 (loaded (Some diagonal_class))
  /\ exists icons w',
       call_toolbar_icons None (loaded (Some diagonal_class))
       = (Return icons, w')
       /\ Dict.keys icons = icon_names
       /\ forall k icon,
            Dict.get k icons = Some icon -> backed_by_square 24 icon.
Proof.
  apply (default_call_24 (loaded (Some diagonal_class)) diagonal_class).
  reflexivity.
Defined.

(** ** Sizes that are not positive *)

Lemma rendered_pixmap_not_positive cls svg size background :
  size <= 0 -> rendered_pixmap cls svg size background = NullPixmap.
Proof.
  intro H. unfold rendered_pixmap. now rewrite new_pixmap_not_positive.
Qed.

Lemma rendered_icon_not_positive g svg size background :
  size <= 0 -> rendered_icon g svg size background = null_icon.
Proof.
  intro H. destruct g as [cls|]; simpl; [|reflexivity].
  now rewrite rendered_pixmap_not_positive.
Qed.

Lemma icon_table_not_positive g size :
  size <= 0 -> icon_table g size = map (fun k => (k, null_icon)) icon_names.
Proof.
  intro H. rewrite <- (icon_table_without_renderer size). unfold icon_table.
  apply map_ext. intros [k svg]; simpl.
  now rewrite rendered_icon_not_positive.
Qed.

(** C9, as stated, fails with the renderer class bound at a negative size
    below the range of a C [int]: the call raises [OverflowError] at
    [QPixmap(size, size)] and returns no dictionary, where the claim has
    null bitmaps and no error. *)
Lemma toolbar_icons_below_int_raises :
  toolbar_icons (-2147483649) (loaded (Some diagonal_class))
  = (Raise OverflowError, loaded (Some diagonal_class))
  /\ ~ exists icons w',
         toolbar_icons (-2147483649) (loaded (Some diagonal_class))
         = (Return icons, w').
Proof.
  assert (E : toolbar_icons (-2147483649) (loaded (Some diagonal_class))
              = (Raise OverflowError, loaded (Some diagonal_class))).
  { now rewrite toolbar_icons_run. }
  split; [exact E|]. intros (icons & w' & H). rewrite E in H. discriminate H.
Qed.

(** C9, amended: [toolbar_icons] does not check its argument.  For every
    integer size in the range of a C [int], zero and the negative ones
    too (and for every integer size when the renderer is not bound), it
    returns the dictionary of the ten names and raises nothing.  The size
    goes as it is into the attributes [width] and [height] of every
    document, and as it is into [QPixmap(size, size)] for every pixmap the
    call makes.  When the size is not positive all these pixmaps are null
    pixmaps, and the ten icons are null icons. *)
Theorem toolbar_icons_any_size size w :
  g_QSvgRenderer w = None \/ in_int_range size ->
  exists icons w',
    toolbar_icons size w = (Return icons, w')
    /\ Dict.keys icons = icon_names
    /\ svgs size
       = map (fun s =>
                (fst s,
                 start_tag "svg"
                   (("xmlns", "http://www.w3.org/2000/svg")
                      :: ("width", str size) :: ("height", str size)
                      :: [ ("viewBox", "0 0 24 24"); ("fill", "none");
                           ("stroke", "black"); ("stroke-width", "1.4");
                           ("stroke-linecap", "round");
                           ("stroke-linejoin", "round") ])
                   ++ String.concat EmptyString (snd s) ++ "</svg>"))
             shapes
    /\ pixmaps w'
       = (pixmaps w
            ++ match g_QSvgRenderer w with
               | None => []
               | Some cls =>
                   map (fun kv =>
                          render_on {| r_class := cls;
                                       r_contents := bytearray_utf8 (snd kv) |}
                            [Antialiasing; TextAntialiasing]
                            (fill transparent (new_pixmap size size)))
                       (svgs size)
               end)%list
    /\ (size <= 0 ->
        new_pixmap size size = NullPixmap
        /\ Forall (fun pm => pm = NullPixmap)
             (new_pixmaps (g_QSvgRenderer w) size (svgs size))
        /\ icons = map (fun k => (k, null_icon)) icon_names).
Proof.
  intro Hret. rewrite toolbar_icons_returns by exact Hret.
  do 2 eexists. split; [reflexivity|].
  split; [apply icon_table_keys|]. split; [apply svgs_documents|].
  split.
  - rewrite after_all_pixmaps. unfold new_pixmaps.
    destruct (g_QSvgRenderer w) as [cls|]; [|reflexivity].
    destruct Hret as [Hret|Hret]; [discriminate Hret|].
    apply fits_int_range in Hret. now rewrite Hret.
  - intro H. split; [now apply new_pixmap_not_positive|]. split.
    + unfold new_pixmaps. destruct (g_QSvgRenderer w) as [cls|]; [|constructor].
      destruct (fits_int size); [|constructor].
      apply Forall_forall. intros pm Hin.
      apply in_map_iff in Hin as ([k svg] & <- & _).
      now apply rendered_pixmap_not_positive.
    + now apply icon_table_not_positive.
Qed.

Lemma toolbar_icons_any_size_witness :
  str (-3) = "-3"
  /\ new_pixmap (-3) (-3) = NullPixmap
  /\ fst (toolbar_icons (-3) (loaded (Some diagonal_class)))
     = Return (map (fun k => (k, null_icon)) icon_names).
Proof.
  destruct (toolbar_icons_any_size (-3) (loaded (Some diagonal_class)))
    as (icons & w' & Hrun & _ & _ & _ & Hneg).
  { right. unfold in_int_range, INT_MIN, INT_MAX. lia. }
  assert (H : -3 <= 0) by lia.
  destruct (Hneg H) as (Hnull & _ & ->).
  split; [reflexivity|]. split; [exact Hnull|]. now rewrite Hrun.
Defined.

(** C10: whenever the renderer class is bound and the size is in the range
    of a C [int], [_svg_icon] returns the icon of a pixmap that was filled
    as a whole, with [transparent] or with the background colour it was
    given, before the document was rendered on it; the painter it made is
    ended when it returns.  So every pixel of every bitmap of the icon is
    defined: it is the fill colour, or what was painted over the fill
    colour; and it is the fill colour everywhere when the document draws
    nothing.  For a size outside that range no bitmap is returned: the call
    raises [OverflowError] before it makes the pixmap. *)
Theorem svg_icon_every_pixel_defined svg size background w cls :
  g_QSvgRenderer w = Some cls ->
  (in_int_range size ->
   exists icon w' pt,
     _svg_icon svg size background w = (Return icon, w')
     /\ icon
        = icon_of_pixmap
            (render_on {| r_class := cls; r_contents := bytearray_utf8 svg |}
               [Antialiasing; TextAntialiasing]
               (fill (fill_color background) (new_pixmap size size)))
     /\ all_pixels (fun p => p = Filled (fill_color background))
          (fill (fill_color background) (new_pixmap size size))
     /\ painters w' = (painters w ++ [pt])%list
     /\ pt_active pt = false
     /\ (forall pm,
           In pm (icon_pixmaps icon) ->
           all_pixels
             (fun p => defined p = true
                       /\ (p = Filled (fill_color background)
                           \/ exists src,
                                p = Over src (Filled (fill_color background))))
             pm)
     /\ ((forall pw ph hints x y,
             rasterize cls (bytearray_utf8 svg) pw ph hints x y = None) ->
         forall pm,
           In pm (icon_pixmaps icon) ->
           all_pixels (fun p => p = Filled (fill_color background)) pm))
  /\ (~ in_int_range size ->
      _svg_icon svg size background w = (Raise OverflowError, w)).
Proof.
  intro Hg. rewrite svg_icon_run, returns_outcome. unfold after_svg_icon.
  rewrite Hg. split.
  - intro Hs. apply fits_int_range in Hs. rewrite Hs.
    do 3 eexists. split; [reflexivity|]. split; [reflexivity|].
    split; [apply fill_all|]. split; [reflexivity|]. split; [reflexivity|].
    split.
    + intros pm Hin. apply icon_of_pixmap_In in Hin as [-> _].
      eapply all_pixels_impl;
        [|apply (rendered_pixmap_pixels cls svg size background)].
      intros p [->|[src ->]]; (split; [reflexivity|]); [now left|].
      right. now exists src.
    + intros Hblank pm Hin. apply icon_of_pixmap_In in Hin as [-> _].
      now apply rendered_pixmap_blank.
  - intro Hs. apply fits_int_not_range in Hs. now rewrite Hs.
Qed.

Lemma svg_icon_every_pixel_defined_witness :
  exists icon w' pt,
    _svg_icon "<svg/>" 2 (Some white) (loaded (Some blank_class))
    = (Return icon, w')
    /\ painters w' = [pt]
    /\ pt_active pt = false
    /\ icon_pixmaps icon
       = [Pixmap 2 2 [[Filled white; Filled white]; [Filled white; Filled white]]]
    /\ forall pm,
         In pm (icon_pixmaps icon) ->
         all_pixels (fun p => p = Filled white) pm.
Proof.
  destruct (svg_icon_every_pixel_defined "<svg/>" 2 (Some white)
              (loaded (Some blank_class)) blank_class eq_refl)
    as [Hret _].
  destruct Hret as (icon & w' & pt & Hrun & -> & _ & Hpt & Hend & _ & Hblank).
  { unfold in_int_range, INT_MIN, INT_MAX. lia. }
  exists (icon_of_pixmap
            (render_on {| r_class := blank_class;
                          r_contents := bytearray_utf8 "<svg/>" |}
               [Antialiasing; TextAntialiasing] (fill white (new_pixmap 2 2)))),
    w', pt.
  split; [exact Hrun|]. split; [exact Hpt|]. split; [exact Hend|].
  split; [reflexivity|].
  apply Hblank. reflexivity.
Defined.

(** ** The size read back from a document *)

Lemma strip_prefix_append p s : strip_prefix p (p ++ s) = Some s.
Proof.
  induction p as [|a p IH]; simpl; [now destruct s|].
  now rewrite Ascii.eqb_refl.
Qed.

Lemma split_quote_append a r :
  quote_free a = true -> split_quote (a ++ String dquote r) = Some (a, r).
Proof.
  induction a as [|c a IH]; simpl; intro H; [reflexivity|].
  apply andb_prop in H as [Hc Ha].
  destruct (Ascii.eqb c dquote); [discriminate Hc|].
  now rewrite IH.
Qed.

Lemma append_assoc_string (a b c : string) : (a ++ b) ++ c = a ++ b ++ c.
Proof.
  induction a as [|x a IH]; simpl; [reflexivity | now rewrite IH].
Qed.

Lemma string_of_uint_quote_free d :
  quote_free (NilEmpty.string_of_uint d) = true.
Proof.
  induction d; simpl; auto.
Qed.

Lemma str_quote_free n : quote_free (str n) = true.
Proof.
  unfold str, NilZero.string_of_int, NilZero.string_of_uint.
  destruct (Z.to_int n) as [d|d]; destruct d; simpl;
    auto using string_of_uint_quote_free.
Qed.

Lemma read_int_str n : read_int (str n) = Some n.
Proof.
  unfold read_int, str. rewrite NilZero.isi.
  - simpl. now rewrite DecimalZ.of_to.
  - destruct n; simpl; try discriminate.
    intros [= H]. now apply DecimalPos.Unsigned.to_uint_nonnil in H.
  - destruct n; simpl; try discriminate.
    intros [= H]. now apply DecimalPos.Unsigned.to_uint_nonnil in H.
Qed.

Lemma read_size_base size rest :
  read_size (base size ++ rest) = Some (size, size).
Proof.
  unfold read_size, base.
  rewrite !append_assoc_string, strip_prefix_append.
  change (lit "' height='") with (String dquote (lit " height='")).
  cbn [append].
  rewrite split_quote_append by apply str_quote_free.
  rewrite strip_prefix_append.
  change (lit "' ") with (String dquote " ").
  cbn [append].
  rewrite split_quote_append by apply str_quote_free.
  now rewrite read_int_str.
Qed.

(** X1: the width and the height can be read back from every document of
    the table: both numerals are the decimal writing of the size, the
    negative sizes included; so the tables of two different sizes have no
    document in common under any key. *)
Theorem svgs_read_size size k doc :
  Dict.get k (svgs size) = Some doc ->
  read_size doc = Some (size, size)
  /\ forall size', Dict.get k (svgs size') = Some doc -> size' = size.
Proof.
  assert (R : forall n d, Dict.get k (svgs n) = Some d ->
                          read_size d = Some (n, n)).
  { intros n d. rewrite svgs_documents.
    rewrite (get_map (document n)).
    destruct (Dict.get k shapes) as [elems|]; simpl; [|discriminate].
    intros [= <-]. unfold document. rewrite <- base_header.
    apply read_size_base. }
  intro H. split; [now apply R|].
  intros size' H'. apply R in H, H'. congruence.
Qed.

Lemma svgs_read_size_witness :
  read_size
    (lit "<svg xmlns='http://www.w3.org/2000/svg' width='-7' height='-7' viewBox='0 0 24 24' fill='none' stroke='black' stroke-width='1.4' stroke-linecap='round' stroke-linejoin='round'><path d='M4 7h16'/><path d='M6 7l1 14h10l1-14'/><path d='M9 7V4h6v3'/></svg>")
  = Some (-7, -7).
Proof.
  apply (svgs_read_size (-7) "erase"). reflexivity.
Defined.

(** ** What [_svg_icon] does to the store *)

Lemma nth_error_app_old {A : Type} (l l' : list A) a x :
  nth_error l a = Some x -> nth_error (l ++ l') a = Some x.
Proof.
  intro H. rewrite nth_error_app1; [exact H|].
  apply nth_error_Some. congruence.
Qed.

(** X2: in every state and for every document, size and background,
    [_svg_icon] either returns an icon or, with the renderer class bound
    and a size outside the range of a C [int], raises [OverflowError]; it
    raises nothing else.  Either way it leaves the global name as it is and
    every pixmap and painter that exists where and as it is, the painters
    at work on other pixmaps included.  It adds one pixmap and one painter
    when the renderer class is bound and the size is in that range, and
    nothing otherwise. *)
Theorem svg_icon_frame svg size background w :
  exists outcome w',
    _svg_icon svg size background w = (outcome, w')
    /\ (g_QSvgRenderer w = None \/ in_int_range size ->
        exists icon, outcome = Return icon)
    /\ (g_QSvgRenderer w <> None -> ~ in_int_range size ->
        outcome = Raise OverflowError)
    /\ g_QSvgRenderer w' = g_QSvgRenderer w
    /\ (forall a pm,
          nth_error (pixmaps w) a = Some pm ->
          nth_error (pixmaps w') a = Some pm)
    /\ (forall p pt,
          nth_error (painters w) p = Some pt ->
          nth_error (painters w') p = Some pt)
    /\ List.length (pixmaps w')
       = (List.length (pixmaps w)
          + match g_QSvgRenderer w with
            | Some _ => if fits_int size then 1 else 0
            | None => 0
            end)%nat
    /\ List.length (painters w')
       = (List.length (painters w)
          + match g_QSvgRenderer w with
            | Some _ => if fits_int size then 1 else 0
            | None => 0
            end)%nat.
Proof.
  rewrite svg_icon_run. do 2 eexists. split; [reflexivity|].
  split; [|split].
  - intro H. apply returns_iff in H. unfold svg_icon_outcome. rewrite H.
    now eexists.
  - intros Hg Hs. unfold svg_icon_outcome.
    now replace (returns (g_QSvgRenderer w) size) with false
      by (symmetry; apply returns_false_iff; split; assumption).
  - split; [apply after_svg_icon_global|].
    unfold after_svg_icon.
    destruct (g_QSvgRenderer w) as [cls|]; [destruct (fits_int size)|]; simpl.
    + rewrite !length_app. simpl.
      repeat split; auto using nth_error_app_old.
    + rewrite !Nat.add_0_r. repeat split; auto.
    + rewrite !Nat.add_0_r. repeat split; auto.
Qed.

Lemma svg_icon_frame_witness :
  (exists icon w',
     _svg_icon "<svg/>" 2 None busy_world = (Return icon, w')
     /\ nth_error (pixmaps w') 0 = Some (Pixmap 1 1 [[Filled red]])
     /\ nth_error (painters w') 0
        = Some {| pt_device := 0; pt_active := true; pt_hints := [] |}
     /\ List.length (pixmaps w') = 2%nat)
  /\ exists w',
       _svg_icon "<svg/>" 2147483648 None busy_world
       = (Raise OverflowError, w')
       /\ List.length (pixmaps w') = 1%nat.
Proof.
  split.
  - destruct (svg_icon_frame "<svg/>" 2 None busy_world)
      as (outcome & w' & Hrun & Hret & _ & _ & Hpm & Hpt & Hlen & _).
    destruct Hret as [icon ->].
    { right. unfold in_int_range, INT_MIN, INT_MAX. lia. }
    exists icon, w'. split; [exact Hrun|].
    split; [apply Hpm; reflexivity|].
    split; [apply Hpt; reflexivity|].
    exact Hlen.
  - destruct (svg_icon_frame "<svg/>" 2147483648 None busy_world)
      as (outcome & w' & Hrun & _ & Hraise & _ & _ & _ & Hlen & _).
    rewrite Hraise in Hrun.
    + exists w'. split; [exact Hrun | exact Hlen].
    + discriminate.
    + unfold in_int_range, INT_MIN, INT_MAX. lia.
Defined.

(** X3: when the renderer class is bound and the size is in the range of a
    C [int], the painter that [_svg_icon] makes is made for the pixmap that
    [_svg_icon] makes, and the icon returned is the icon of that pixmap as
    the store holds it at the end: what was painted through the painter is
    what the icon shows.  At the end the painter is not active and has no
    render hint left. *)
Theorem svg_icon_paints_its_pixmap svg size background w cls :
  g_QSvgRenderer w = Some cls ->
  in_int_range size ->
  exists icon w' pt pm,
    _svg_icon svg size background w = (Return icon, w')
    /\ nth_error (painters w') (List.length (painters w)) = Some pt
    /\ pt_device pt = List.length (pixmaps w)
    /\ nth_error (pixmaps w') (pt_device pt) = Some pm
    /\ icon = icon_of_pixmap pm
    /\ pt_active pt = false
    /\ pt_hints pt = [].
Proof.
  intros Hg Hs. apply fits_int_range in Hs.
  rewrite svg_icon_run, returns_outcome. unfold after_svg_icon.
  rewrite Hg, Hs. do 4 eexists. split; [reflexivity|]. simpl.
  split; [apply nth_error_snoc|]. simpl.
  split; [reflexivity|]. split; [apply nth_error_snoc|].
  repeat split.
Qed.

Lemma svg_icon_paints_its_pixmap_witness :
  exists icon w' pt pm,
    _svg_icon "<svg/>" 2 None busy_world = (Return icon, w')
    /\ nth_error (painters w') 1 = Some pt
    /\ pt_device pt = 1%nat
    /\ nth_error (pixmaps w') (pt_device pt) = Some pm
    /\ icon = icon_of_pixmap pm
    /\ pt_active pt = false
    /\ pt_hints pt = [].
Proof.
  apply (svg_icon_paints_its_pixmap "<svg/>" 2 None busy_world diagonal_class).
  - reflexivity.
  - unfold in_int_range, INT_MIN, INT_MAX. lia.
Defined.

(** ** The icon of [_svg_icon], pixel by pixel *)

(** X4: what [_svg_icon] ends with is settled by the renderer and the size
    alone, whatever the document and the background.  Without the renderer
    class it returns the null icon.  With it, it raises [OverflowError] for
    a size outside the range of a C [int], returns the null icon for a size
    in that range that is not positive, and for a positive size in that
    range returns an icon that holds one bitmap of [size] by [size] pixels,
    even for a document that is no SVG at all.  So the null icon is
    returned exactly when the renderer is not bound or the size is in range
    and not positive. *)
Theorem svg_icon_null_or_square svg size background w :
  exists outcome w',
    _svg_icon svg size background w = (outcome, w')
    /\ (g_QSvgRenderer w = None -> outcome = Return null_icon)
    /\ (g_QSvgRenderer w <> None -> ~ in_int_range size ->
        outcome = Raise OverflowError)
    /\ (g_QSvgRenderer w <> None -> INT_MIN <= size <= 0 ->
        outcome = Return null_icon)
    /\ (g_QSvgRenderer w <> None -> 0 < size <= INT_MAX ->
        exists icon, outcome = Return icon /\ backed_by_square size icon)
    /\ (outcome = Return null_icon ->
        g_QSvgRenderer w = None \/ INT_MIN <= size <= 0).
Proof.
  rewrite svg_icon_run, returns_outcome. do 2 eexists. split; [reflexivity|].
  destruct (g_QSvgRenderer w) as [cls|].
  2:{ repeat split; try reflexivity; try (intro N; now contradiction N).
      intros _. now left. }
  destruct (fits_int size) eqn:Hf.
  - apply fits_int_range in Hf. unfold in_int_range in Hf.
    destruct (Z.lt_ge_cases 0 size) as [Hpos|Hneg].
    + assert (Hsq := rendered_icon_square cls svg size background Hpos).
      simpl in Hsq.
      split; [discriminate|]. split; [intros _ N; now contradiction N|].
      split; [intros _ H; lia|]. split.
      * intros _ _. now eexists.
      * intros [= N]. destruct Hsq as (pm & E & _).
        rewrite N in E. discriminate E.
    + rewrite rendered_pixmap_not_positive by exact Hneg.
      split; [discriminate|]. split; [intros _ N; now contradiction N|].
      split; [reflexivity|]. split; [intros _ H; lia|].
      intros _. right. lia.
  - apply fits_int_not_range in Hf. unfold in_int_range in Hf.
    split; [discriminate|]. split; [reflexivity|].
    split; [intros _ H; unfold INT_MIN, INT_MAX in *; lia|].
    split; [intros _ H; unfold INT_MIN, INT_MAX in *; lia|].
    discriminate.
Qed.

Lemma svg_icon_null_or_square_witness :
  (exists w',
      _svg_icon "not svg" (-1) (Some white) (loaded (Some diagonal_class))
      = (Return null_icon, w'))
  /\ (exists icon w',
        _svg_icon "not svg" 3 (Some white) (loaded (Some diagonal_class))
        = (Return icon, w')
        /\ backed_by_square 3 icon)
  /\ exists w',
       _svg_icon "not svg" (-2147483649) (Some white)
         (loaded (Some diagonal_class))
       = (Raise OverflowError, w').
Proof.
  split; [|split].
  - destruct (svg_icon_null_or_square "not svg" (-1) (Some white)
                (loaded (Some diagonal_class)))
      as (outcome & w' & Hrun & _ & _ & Hnull & _).
    exists w'. rewrite Hrun, Hnull; [reflexivity | discriminate |].
    unfold INT_MIN. lia.
  - destruct (svg_icon_null_or_square "not svg" 3 (Some white)
                (loaded (Some diagonal_class)))
      as (outcome & w' & Hrun & _ & _ & _ & Hsq & _).
    destruct Hsq as (icon & -> & Hsq); [discriminate | unfold INT_MAX; lia |].
    now exists icon, w'.
  - destruct (svg_icon_null_or_square "not svg" (-2147483649) (Some white)
                (loaded (Some diagonal_class)))
      as (outcome & w' & Hrun & _ & Hraise & _).
    exists w'. rewrite Hrun, Hraise; [reflexivity | discriminate |].
    unfold in_int_range, INT_MIN, INT_MAX. lia.
Defined.

Lemma nth_error_mapi {A B : Type} (f : Z -> A -> B) l :
  forall i n,
    nth_error (mapi f i l) n = option_map (f (i + Z.of_nat n)) (nth_error l n).
Proof.
  induction l as [|a r IH]; intros i n; simpl.
  - now destruct n.
  - destruct n as [|n]; simpl.
    + now rewrite Z.add_0_r.
    + rewrite IH. now replace (i + 1 + Z.of_nat n) with (i + Z.pos (Pos.of_succ_nat n)) by lia.
Qed.

Lemma nth_error_repeat_ltb {A : Type} (a : A) n k :
  nth_error (repeat a n) k = if Nat.ltb k n then Some a else None.
Proof.
  destruct (Nat.ltb_spec k n) as [H|H].
  - now apply nth_error_repeat.
  - apply nth_error_None. now rewrite repeat_length.
Qed.

(** The pixel in column [x] of row [y] of the pixmap [_svg_icon] ends
    with: what the renderer paints there, over the fill colour. *)
Lemma rendered_pixmap_pixel_at cls svg size background x y :
  0 < size ->
  pixel_at (rendered_pixmap cls svg size background) x y
  = if Nat.ltb x (Z.to_nat size) && Nat.ltb y (Z.to_nat size)
    then Some (paint_pixel
                 (rasterize cls (bytearray_utf8 svg) size size
                    [Antialiasing; TextAntialiasing]
                    (Z.of_nat x) (Z.of_nat y))
                 (Filled (fill_color background)))
    else None.
Proof.
  intro H. unfold rendered_pixmap, hints_at_render, pixel_at.
  rewrite new_pixmap_positive by exact H. cbn [fill render_on rows r_class r_contents].
  rewrite nth_error_mapi, nth_error_map, nth_error_repeat_ltb.
  destruct (Nat.ltb y (Z.to_nat size)); cbn [option_map];
    [|now rewrite andb_false_r].
  rewrite nth_error_mapi, nth_error_map, nth_error_repeat_ltb.
  rewrite andb_true_r.
  now destruct (Nat.ltb x (Z.to_nat size)).
Qed.

Lemma rendered_icon_pixmap cls svg size background :
  0 < size ->
  icon_pixmaps (rendered_icon (Some cls) svg size background)
  = [rendered_pixmap cls svg size background].
Proof.
  intro Hs. simpl. unfold icon_of_pixmap. rewrite rendered_pixmap_isNull.
  now replace (0 <? size) with true by (symmetry; apply Z.ltb_lt; exact Hs).
Qed.

(** X5: with the renderer class bound and a positive size in the range of
    a C [int], the bitmap of the icon [_svg_icon] returns has, in column
    [x] of row [y], for [x] and [y] below the size, what the renderer
    paints at [(x, y)] for this document on a device of [size] by [size]
    pixels under the render hints [Antialiasing] and [TextAntialiasing],
    laid over the fill colour ([transparent], or the background given); and
    it has no pixel anywhere else. *)
Theorem svg_icon_pixels svg size background w cls :
  g_QSvgRenderer w = Some cls ->
  0 < size <= INT_MAX ->
  exists icon w' pm,
    _svg_icon svg size background w = (Return icon, w')
    /\ icon_pixmaps icon = [pm]
    /\ forall x y,
         pixel_at pm x y
         = if Nat.ltb x (Z.to_nat size) && Nat.ltb y (Z.to_nat size)
           then Some (paint_pixel
                        (rasterize cls (bytearray_utf8 svg) size size
                           [Antialiasing; TextAntialiasing]
                           (Z.of_nat x) (Z.of_nat y))
                        (Filled (fill_color background)))
           else None.
Proof.
  intros Hg [Hs Hmax]. rewrite svg_icon_run, Hg. unfold svg_icon_outcome.
  replace (returns (Some cls) size) with true.
  2:{ symmetry. apply returns_iff. right.
      unfold in_int_range, INT_MIN. lia. }
  exists (rendered_icon (Some cls) svg size background).
  eexists. exists (rendered_pixmap cls svg size background).
  split; [reflexivity|]. split; [now apply rendered_icon_pixmap|].
  intros x y. now apply rendered_pixmap_pixel_at.
Qed.

Lemma svg_icon_pixels_witness :
  exists icon w' pm,
    _svg_icon "<svg/>" 2 (Some white) (loaded (Some diagonal_class))
    = (Return icon, w')
    /\ icon_pixmaps icon = [pm]
    /\ pixel_at pm 1 1 = Some (Over (argb 255 0 0 0) (Filled white))
    /\ pixel_at pm 0 1 = Some (Filled white)
    /\ pixel_at pm 2 0 = None.
Proof.
  destruct (svg_icon_pixels "<svg/>" 2 (Some white)
              (loaded (Some diagonal_class)) diagonal_class eq_refl)
    as (icon & w' & pm & Hrun & Hpm & Hpx); [unfold INT_MAX; lia|].
  exists icon, w', pm. split; [exact Hrun|]. split; [exact Hpm|].
  rewrite !Hpx. repeat split.
Defined.

(** X6: with the renderer class bound and a positive size in the range of
    a C [int], the icon that [toolbar_icons] returns under a name holds one
    bitmap, and its pixel in column [x] of row [y] is what the renderer
    paints at [(x, y)] for the document of that name (the header for the
    size, the shapes of the name, the end tag) on a device of [size] by
    [size] pixels under the render hints [Antialiasing] and
    [TextAntialiasing], laid over [transparent]; the bitmap has no pixel
    outside the square. *)
Theorem toolbar_icons_pixels size w cls k elements :
  g_QSvgRenderer w = Some cls ->
  0 < size <= INT_MAX ->
  Dict.get k shapes = Some elements ->
  exists icon pm,
    icon_for k (toolbar_icons size w) = Some icon
    /\ icon_pixmaps icon = [pm]
    /\ forall x y,
         pixel_at pm x y
         = if Nat.ltb x (Z.to_nat size) && Nat.ltb y (Z.to_nat size)
           then Some (paint_pixel
                        (rasterize cls
                           (bytearray_utf8
                              (base size
                                 ++ String.concat EmptyString elements
                                 ++ "</svg>"))
                           size size [Antialiasing; TextAntialiasing]
                           (Z.of_nat x) (Z.of_nat y))
                        (Filled transparent))
           else None.
Proof.
  intros Hg [Hs Hmax] Hk. unfold icon_for.
  rewrite toolbar_icons_returns, Hg.
  2:{ right. unfold in_int_range, INT_MIN. lia. }
  cbn [fst].
  rewrite icon_table_get, svgs_documents, (get_map (document size)), Hk.
  cbn [option_map].
  exists (rendered_icon (Some cls) (document size elements) size None),
    (rendered_pixmap cls (document size elements) size None).
  split; [reflexivity|]. split; [now apply rendered_icon_pixmap|].
  intros x y. rewrite rendered_pixmap_pixel_at by exact Hs. reflexivity.
Qed.

Lemma toolbar_icons_pixels_witness :
  exists icon pm,
    icon_for "zoom_in" (toolbar_icons 32 (loaded (Some diagonal_class)))
    = Some icon
    /\ icon_pixmaps icon = [pm]
    /\ pixel_at pm 5 5 = Some (Over (argb 255 0 0 0) (Filled transparent))
    /\ pixel_at pm 5 6 = Some (Filled transparent)
    /\ pixel_at pm 32 0 = None.
Proof.
  destruct (toolbar_icons_pixels 32 (loaded (Some diagonal_class))
              diagonal_class "zoom_in"
              [ lit "<circle cx='11' cy='11' r='6'/>";
                lit "<path d='M20 20l-3.5-3.5'/>";
                lit "<path d='M11 8.8v4.4'/>";
                lit "<path d='M8.8 11h4.4'/>" ]
              eq_refl)
    as (icon & pm & Hicon & Hpm & Hpx); [unfold INT_MAX; lia | reflexivity |].
  exists icon, pm. split; [exact Hicon|]. split; [exact Hpm|].
  rewrite !Hpx. repeat split.
Defined.
